(** * Viatra demo application (app.py): session store and its handlers

    A shallow embedding of the session-scoped data model of [app.py] and of
    the button handlers that mutate it, followed by the properties of the
    natural-language specification that concern them.

    Conventions of the embedding:
    - a Python [str] is the list of its Unicode code points ([list N]);
    - a Python [dict] keyed by profile name is a [gmap] (the key order of
      the dict, used only to lay out the profile select box, is not kept);
    - a pandas [DataFrame] is its column labels and its rows in index order;
    - a Python exception is a value of [PyErr] carried by the type [result];
    - the value of a widget and the clock are inputs of the handlers. *)

From Stdlib Require Import ZArith Ascii String.
From stdpp Require Import gmap list strings sorting.

Local Open Scope Z_scope.
Local Open Scope list_scope.

(* ===================================================================== *)
(** ** Python strings *)
(* ===================================================================== *)

Abbreviation pystr := (list N).

(** An ASCII literal of the source as a Python string. *)
Definition py (s : string) : pystr :=
  map N_of_ascii (list_ascii_of_string s).

(** The characters [str.strip()] removes: those for which [str.isspace]
    holds (CPython's [Py_UNICODE_ISSPACE]). *)
Definition is_space (c : N) : bool :=
  ((9 <=? c) && (c <=? 13) || (28 <=? c) && (c <=? 32)
   || (c =? 133) || (c =? 160) || (c =? 5760)
   || (8192 <=? c) && (c <=? 8202)
   || (c =? 8232) || (c =? 8233) || (c =? 8239) || (c =? 8287)
   || (c =? 12288))%N.

Fixpoint lstrip (s : pystr) : pystr :=
  match s with
  | [] => []
  | c :: s' => if is_space c then lstrip s' else s
  end.

Definition rstrip (s : pystr) : pystr := rev (lstrip (rev s)).

(** [s.strip()] *)
Definition strip (s : pystr) : pystr := rstrip (lstrip s).

(** [s.split(sep)] for a one-character separator: never the empty list,
    the empty string gives one empty fragment. *)
Fixpoint split (sep : N) (s : pystr) : list pystr :=
  match s with
  | [] => [[]]
  | c :: s' =>
      if (c =? sep)%N then [] :: split sep s'
      else match split sep s' with
           | [] => [[c]]
           | frag :: frags => (c :: frag) :: frags
           end
  end.

(** Truth value of a Python string: non-empty. *)
Definition truthy (s : pystr) : bool :=
  match s with [] => false | _ :: _ => true end.

Definition comma : N := 44%N.

(** [[x.strip() for x in frags if x.strip()]] *)
Fixpoint strip_nonempty (frags : list pystr) : list pystr :=
  match frags with
  | [] => []
  | x :: rest =>
      if truthy (strip x) then strip x :: strip_nonempty rest
      else strip_nonempty rest
  end.

(** [[x.strip() for x in text.split(",") if x.strip()]], the conversion
    used for the three passport fields, the medication list and the
    e-prescription. *)
Definition comma_list (text : pystr) : list pystr :=
  strip_nonempty (split comma text).

(** [sep.join(parts)] *)
Fixpoint join (sep : pystr) (parts : list pystr) : pystr :=
  match parts with
  | [] => []
  | [p] => p
  | p :: rest => p ++ sep ++ join sep rest
  end.

(** Comparison of Python strings: code point by code point, a proper
    prefix first. *)
Fixpoint str_compare (a b : pystr) : comparison :=
  match a, b with
  | [], [] => Eq
  | [], _ :: _ => Lt
  | _ :: _, [] => Gt
  | x :: a', y :: b' =>
      match (x ?= y)%N with
      | Eq => str_compare a' b'
      | c => c
      end
  end.

(* ===================================================================== *)
(** ** Exceptions *)
(* ===================================================================== *)

Inductive PyErr : Type :=
  | KeyError (key : pystr)
  | ValueError.

Inductive result (A : Type) : Type :=
  | Ok (a : A)
  | Raise (e : PyErr).
Arguments Ok {A} a.
Arguments Raise {A} e.

#[global] Instance result_ret : MRet result := fun _ a => Ok a.
#[global] Instance result_bind : MBind result := fun _ _ f m =>
  match m with
  | Ok a => f a
  | Raise e => Raise e
  end.

Definition is_Ok {A} (m : result A) : Prop :=
  match m with Ok _ => True | Raise _ => False end.

(** [d[k]] on a dict. *)
Definition getitem {V} (d : gmap pystr V) (k : pystr) : result V :=
  match d !! k with
  | Some v => Ok v
  | None => Raise (KeyError k)
  end.

(* ===================================================================== *)
(** ** Data frames *)
(* ===================================================================== *)

(** Column labels and rows in index order. Every frame of the program is
    built with [ignore_index=True], so the row labels are the positions. *)
Record DataFrame (R : Type) : Type := mkDF {
  columns : list pystr;
  rows : list R;
}.
Arguments mkDF {R} columns rows.
Arguments columns {R} d.
Arguments rows {R} d.

(** [df.empty]: some axis has length 0. *)
Definition empty {R} (df : DataFrame R) : bool :=
  match columns df, rows df with
  | _ :: _, _ :: _ => false
  | _, _ => true
  end.

(** Labels of [more] that [cols] lacks, in order. *)
Definition new_labels (cols more : list pystr) : list pystr :=
  filter (λ c, c ∉ cols) more.

(** [pd.concat([a, b], ignore_index=True)]: the rows of [a] then those of
    [b]; the columns of [a] then the columns only [b] has. *)
Definition concat {R} (a b : DataFrame R) : DataFrame R :=
  mkDF (columns a ++ new_labels (columns a) (columns b)) (rows a ++ rows b).

(** [df[mask]] for a row-wise boolean mask. *)
Definition select {R} (mask : R → bool) (df : DataFrame R) : DataFrame R :=
  mkDF (columns df) (List.filter mask (rows df)).

(** [df.tail(n)], that is [df.iloc[0:0]] when [n == 0] and [df.iloc[-n:]]
    otherwise: the last [n] rows, all of them when there are fewer, and for
    a negative [n] all rows but the first [-n]. *)
Definition tail {R} (n : Z) (df : DataFrame R) : DataFrame R :=
  let l := rows df in
  mkDF (columns df)
    (if n =? 0 then []
     else if 0 <? n then drop (length l - Z.to_nat n) l
     else drop (Z.to_nat (- n)) l).

(** Stable insertion of [x] into a list sorted by [le]. *)
Fixpoint insert_sorted {R} (le : R → R → bool) (x : R) (l : list R) : list R :=
  match l with
  | [] => [x]
  | y :: l' => if le x y then x :: l else y :: insert_sorted le x l'
  end.

(** [df.sort_values(by=...)] with [le] the ascending order of the key
    columns: a stable sort (rows with equal keys keep their order). *)
Definition sort_values {R} (le : R → R → bool) (df : DataFrame R) : DataFrame R :=
  mkDF (columns df) (foldr (insert_sorted le) [] (rows df)).

(* ===================================================================== *)
(** ** Data model *)
(* ===================================================================== *)

(** [datetime.date] and [datetime.time] values. *)
Record Date : Type := mkDate { year : Z; month : Z; day : Z }.
Record Time : Type := mkTime { hour : Z; minute : Z; second : Z; microsecond : Z }.

Definition digit (d : Z) : N := Z.to_N (48 + d mod 10).

(** [d.isoformat()], that is ["%04d-%02d-%02d"] of year, month and day. *)
Definition isoformat (d : Date) : pystr :=
  [digit (year d / 1000); digit (year d / 100); digit (year d / 10); digit (year d)]
  ++ [45%N] ++ [digit (month d / 10); digit (month d)]
  ++ [45%N] ++ [digit (day d / 10); digit (day d)].

(** Value of [profiles[name]]. *)
Module Profile.
Record t : Type := mk { dob : option Date; gender : option pystr }.
End Profile.

(** The dict appended to a vitals frame by "Add Entry". *)
Module Vitals.
Record t : Type := mk {
  date : Date; time : Time;
  systolic : Z; diastolic : Z; hr : Z; glucose : Z;
}.
End Vitals.

(** Value of [passport[name]]: a dict with exactly these three keys. *)
Module Passport.
Record t : Type := mk {
  immunizations : list pystr;
  allergies : list pystr;
  conditions : list pystr;
}.
End Passport.

(** Value of [challenges[name]]. *)
Module Challenge.
Record t : Type := mk { name : option pystr; progress : Z; started : option pystr }.
End Challenge.

(** A row of the [patients] frame. *)
Module Patient.
Record t : Type := mk {
  id : pystr; name : pystr; age : Z; sex : pystr;
  allergies : pystr; comorbidities : pystr;
}.
End Patient.

(** A row of the [roster] frame; [date] is an ISO date string. *)
Module Roster.
Record t : Type := mk { date : pystr; shift : pystr; doctor : pystr }.
End Roster.

(** A row of the [notes] frame. *)
Module Note.
Record t : Type := mk { patient_id : pystr; timestamp : pystr; author : pystr; note : pystr }.
End Note.

(** An element of [chat]. *)
Module Chat.
Record t : Type := mk { when : pystr; who : pystr; msg : pystr }.
End Chat.

(** An element of [pilot_requests]. *)
Module Pilot.
Record t : Type := mk {
  org : pystr; email : pystr; use_case : pystr; notes : pystr; created : pystr;
}.
End Pilot.

(** [st.session_state] once [_init_state] has run: every key is present.
    No handler of the program ever adds to [records], [challenges],
    [notes] or [micro_consults]; the elements of [records] and
    [micro_consults] are taken to be strings. *)
Record SessionState : Type := mkSession {
  active_profile : pystr;
  profiles : gmap pystr Profile.t;
  vitals : gmap pystr (DataFrame Vitals.t);
  meds : gmap pystr (list pystr);
  records : gmap pystr (list pystr);
  lab_text : pystr;
  challenges : gmap pystr Challenge.t;
  roster : DataFrame Roster.t;
  patients : DataFrame Patient.t;
  notes : DataFrame Note.t;
  chat : list Chat.t;
  passport : gmap pystr Passport.t;
  micro_consults : list pystr;
  pilot_requests : list Pilot.t;
}.

(** [st.session_state] as the script finds it when a run starts: a key
    may be absent. *)
Record RawSession : Type := mkRaw {
  raw_active_profile : option pystr;
  raw_profiles : option (gmap pystr Profile.t);
  raw_vitals : option (gmap pystr (DataFrame Vitals.t));
  raw_meds : option (gmap pystr (list pystr));
  raw_records : option (gmap pystr (list pystr));
  raw_lab_text : option pystr;
  raw_challenges : option (gmap pystr Challenge.t);
  raw_roster : option (DataFrame Roster.t);
  raw_patients : option (DataFrame Patient.t);
  raw_notes : option (DataFrame Note.t);
  raw_chat : option (list Chat.t);
  raw_passport : option (gmap pystr Passport.t);
  raw_micro_consults : option (list pystr);
  raw_pilot_requests : option (list Pilot.t);
}.

(** A session nothing has been stored in yet. *)
Definition fresh_session : RawSession :=
  mkRaw None None None None None None None None None None None None None None.

(** What a run leaves in [st.session_state] for the next one. *)
Definition stored (ss : SessionState) : RawSession :=
  mkRaw (Some (active_profile ss)) (Some (profiles ss)) (Some (vitals ss))
        (Some (meds ss)) (Some (records ss)) (Some (lab_text ss))
        (Some (challenges ss)) (Some (roster ss)) (Some (patients ss))
        (Some (notes ss)) (Some (chat ss)) (Some (passport ss))
        (Some (micro_consults ss)) (Some (pilot_requests ss)).

(** [ss.setdefault(key, d)]: the stored value, or [d] when the key is
    absent. *)
Definition setdefault {A} (cur : option A) (d : A) : A :=
  match cur with
  | Some v => v
  | None => d
  end.

Definition VITALS_COLUMNS : list pystr :=
  [py "datetime"; py "systolic"; py "diastolic"; py "hr"; py "glucose"].
Definition ROSTER_COLUMNS : list pystr := [py "date"; py "shift"; py "doctor"].
Definition PATIENT_COLUMNS : list pystr :=
  [py "id"; py "name"; py "age"; py "sex"; py "allergies"; py "comorbidities"].
Definition NOTE_COLUMNS : list pystr :=
  [py "patient_id"; py "timestamp"; py "author"; py "note"].

Definition Me : pystr := py "Me".

(** [_init_state()] (app.py 25-40), run at the top of every script run. *)
Definition _init_state (ss : RawSession) : SessionState := {|
  active_profile := setdefault (raw_active_profile ss) Me;
  profiles := setdefault (raw_profiles ss) {[ Me := Profile.mk None None ]};
  vitals := setdefault (raw_vitals ss) {[ Me := mkDF VITALS_COLUMNS [] ]};
  meds := setdefault (raw_meds ss) {[ Me := [] ]};
  records := setdefault (raw_records ss) {[ Me := [] ]};
  lab_text := setdefault (raw_lab_text ss) [];
  challenges := setdefault (raw_challenges ss) {[ Me := Challenge.mk None 0 None ]};
  roster := setdefault (raw_roster ss) (mkDF ROSTER_COLUMNS []);
  patients := setdefault (raw_patients ss) (mkDF PATIENT_COLUMNS []);
  notes := setdefault (raw_notes ss) (mkDF NOTE_COLUMNS []);
  chat := setdefault (raw_chat ss) [];
  passport := setdefault (raw_passport ss) {[ Me := Passport.mk [] [] [] ]};
  micro_consults := setdefault (raw_micro_consults ss) [];
  pilot_requests := setdefault (raw_pilot_requests ss) [];
|}.

(** The state of the first run of a session. *)
Definition initial : SessionState := _init_state fresh_session.

(* ===================================================================== *)
(** ** Assignment to one key of the session state *)
(* ===================================================================== *)

Definition set_active_profile (v : pystr) (ss : SessionState) : SessionState :=
  mkSession v (profiles ss) (vitals ss) (meds ss) (records ss) (lab_text ss)
    (challenges ss) (roster ss) (patients ss) (notes ss) (chat ss)
    (passport ss) (micro_consults ss) (pilot_requests ss).

Definition set_profiles (v : gmap pystr Profile.t) (ss : SessionState) : SessionState :=
  mkSession (active_profile ss) v (vitals ss) (meds ss) (records ss) (lab_text ss)
    (challenges ss) (roster ss) (patients ss) (notes ss) (chat ss)
    (passport ss) (micro_consults ss) (pilot_requests ss).

Definition set_vitals (v : gmap pystr (DataFrame Vitals.t)) (ss : SessionState) : SessionState :=
  mkSession (active_profile ss) (profiles ss) v (meds ss) (records ss) (lab_text ss)
    (challenges ss) (roster ss) (patients ss) (notes ss) (chat ss)
    (passport ss) (micro_consults ss) (pilot_requests ss).

Definition set_meds (v : gmap pystr (list pystr)) (ss : SessionState) : SessionState :=
  mkSession (active_profile ss) (profiles ss) (vitals ss) v (records ss) (lab_text ss)
    (challenges ss) (roster ss) (patients ss) (notes ss) (chat ss)
    (passport ss) (micro_consults ss) (pilot_requests ss).

Definition set_records (v : gmap pystr (list pystr)) (ss : SessionState) : SessionState :=
  mkSession (active_profile ss) (profiles ss) (vitals ss) (meds ss) v (lab_text ss)
    (challenges ss) (roster ss) (patients ss) (notes ss) (chat ss)
    (passport ss) (micro_consults ss) (pilot_requests ss).

Definition set_lab_text (v : pystr) (ss : SessionState) : SessionState :=
  mkSession (active_profile ss) (profiles ss) (vitals ss) (meds ss) (records ss) v
    (challenges ss) (roster ss) (patients ss) (notes ss) (chat ss)
    (passport ss) (micro_consults ss) (pilot_requests ss).

Definition set_roster (v : DataFrame Roster.t) (ss : SessionState) : SessionState :=
  mkSession (active_profile ss) (profiles ss) (vitals ss) (meds ss) (records ss)
    (lab_text ss) (challenges ss) v (patients ss) (notes ss) (chat ss)
    (passport ss) (micro_consults ss) (pilot_requests ss).

Definition set_patients (v : DataFrame Patient.t) (ss : SessionState) : SessionState :=
  mkSession (active_profile ss) (profiles ss) (vitals ss) (meds ss) (records ss)
    (lab_text ss) (challenges ss) (roster ss) v (notes ss) (chat ss)
    (passport ss) (micro_consults ss) (pilot_requests ss).

Definition set_chat (v : list Chat.t) (ss : SessionState) : SessionState :=
  mkSession (active_profile ss) (profiles ss) (vitals ss) (meds ss) (records ss)
    (lab_text ss) (challenges ss) (roster ss) (patients ss) (notes ss) v
    (passport ss) (micro_consults ss) (pilot_requests ss).

Definition set_passport (v : gmap pystr Passport.t) (ss : SessionState) : SessionState :=
  mkSession (active_profile ss) (profiles ss) (vitals ss) (meds ss) (records ss)
    (lab_text ss) (challenges ss) (roster ss) (patients ss) (notes ss) (chat ss)
    v (micro_consults ss) (pilot_requests ss).

Definition set_pilot_requests (v : list Pilot.t) (ss : SessionState) : SessionState :=
  mkSession (active_profile ss) (profiles ss) (vitals ss) (meds ss) (records ss)
    (lab_text ss) (challenges ss) (roster ss) (patients ss) (notes ss) (chat ss)
    (passport ss) (micro_consults ss) v.

(* ===================================================================== *)
(** ** Input widgets *)
(* ===================================================================== *)

(** [st.number_input(label, min_value, max_value, value)]: the widget
    returns an integer between [min_value] and [max_value], both included. *)
Record NumberInput : Type := mkNumberInput {
  min_value : Z; max_value : Z; value : Z;
}.

Definition number_input (w : NumberInput) (v : Z) : bool :=
  (min_value w <=? v) && (v <=? max_value w).

(** [st.selectbox(label, options)]: the widget returns one of [options]. *)
Definition selectbox (options : list pystr) (v : pystr) : bool :=
  bool_decide (v ∈ options).

(** app.py 379-385 *)
Definition SYSTOLIC : NumberInput := mkNumberInput 80 220 120.
Definition DIASTOLIC : NumberInput := mkNumberInput 40 130 80.
Definition HEART_RATE : NumberInput := mkNumberInput 40 200 72.
Definition GLUCOSE : NumberInput := mkNumberInput 60 400 95.
(** app.py 435, 437, 453, 272 *)
Definition AGE : NumberInput := mkNumberInput 0 120 40.
Definition SEX_OPTIONS : list pystr := [py "M"; py "F"; py "Other"].
Definition SHIFT_OPTIONS : list pystr := [py "Morning"; py "Evening"; py "Night"].
Definition USE_CASE_OPTIONS : list pystr :=
  [py "Consumer pilot"; py "Hospital pilot"; py "Integration partner";
   py "Research collaboration"].

(* ===================================================================== *)
(** ** Consumer page: handlers and views (app.py 327-407) *)
(* ===================================================================== *)

(** The profile select box (app.py 332-335). [prof_names.index(...)]
    raises [ValueError] when the active profile is not a profile. *)
Definition select_active (active : pystr) (ss : SessionState) : result SessionState :=
  if bool_decide (active_profile ss ∈ dom (profiles ss)) then
    Ok (if bool_decide (active ≠ active_profile ss)
        then set_active_profile active ss
        else ss)
  else Raise ValueError.

(** "Add Profile" (app.py 337-344). *)
Definition add_profile (new_name : pystr) (ss : SessionState) : SessionState :=
  if truthy new_name && bool_decide (new_name ∉ dom (profiles ss)) then
    let ss := set_profiles (<[new_name := Profile.mk None None]> (profiles ss)) ss in
    let ss := set_vitals (<[new_name := mkDF VITALS_COLUMNS []]> (vitals ss)) ss in
    let ss := set_meds (<[new_name := []]> (meds ss)) ss in
    let ss := set_records (<[new_name := []]> (records ss)) ss in
    set_passport (<[new_name := Passport.mk [] [] []]> (passport ss)) ss
  else ss.

(** "Update Passport" (app.py 351-357). *)
Definition update_passport (imms alls cond : pystr) (ss : SessionState) : SessionState :=
  set_passport
    (<[active_profile ss :=
         Passport.mk (comma_list imms) (comma_list alls) (comma_list cond)]>
       (passport ss)) ss.

(** A value that [json.dumps] serialises. *)
Inductive Json : Type :=
  | JStr (s : pystr)
  | JList (l : list pystr).

(** The dict handed to [json.dumps] for the passport download
    (app.py 358-361): the key ["profile"], then the items of the active
    profile's passport. *)
Definition passport_payload (ss : SessionState) : result (list (pystr * Json)) :=
  p ← getitem (passport ss) (active_profile ss);
  mret [ (py "profile", JStr (active_profile ss));
         (py "immunizations", JList (Passport.immunizations p));
         (py "allergies", JList (Passport.allergies p));
         (py "conditions", JList (Passport.conditions p)) ].

(** "Save Med List" (app.py 367-369). *)
Definition save_med_list (meds_str : pystr) (ss : SessionState) : SessionState :=
  set_meds (<[active_profile ss := comma_list meds_str]> (meds ss)) ss.

Definition ENTRY_COLUMNS : list pystr :=
  [py "date"; py "time"; py "systolic"; py "diastolic"; py "hr"; py "glucose"].

(** "Add Entry" (app.py 386-392). *)
Definition add_entry (date : Date) (time : Time) (sys dia hr glu : Z)
    (ss : SessionState) : result SessionState :=
  df ← getitem (vitals ss) (active_profile ss);
  mret (set_vitals
          (<[active_profile ss :=
               concat df (mkDF ENTRY_COLUMNS [Vitals.mk date time sys dia hr glu])]>
             (vitals ss)) ss).

(** The vitals table (app.py 394-398): [None] stands for the "No vitals
    yet" notice. *)
Definition vitals_table (ss : SessionState) : result (option (DataFrame Vitals.t)) :=
  vitals_df ← getitem (vitals ss) (active_profile ss);
  mret (if empty vitals_df then None else Some (tail 6 vitals_df)).

(** "Interpret" (app.py 403-404). *)
Definition interpret (text : pystr) (ss : SessionState) : SessionState :=
  set_lab_text text ss.

(* ===================================================================== *)
(** ** Hospital page and home page: handlers and views *)
(* ===================================================================== *)

(** "Add / Update Patient" (app.py 442-446). *)
Definition upsert_patient (pid pname : pystr) (page : Z) (psex pall pcom : pystr)
    (ss : SessionState) : SessionState :=
  let df := patients ss in
  let df := select (λ r, bool_decide (Patient.id r ≠ pid)) df in
  set_patients
    (concat df (mkDF PATIENT_COLUMNS [Patient.mk pid pname page psex pall pcom])) ss.

(** "Add to Roster" (app.py 455-460). *)
Definition add_to_roster (rdate : Date) (rshift rdoc : pystr)
    (ss : SessionState) : SessionState :=
  set_roster
    (concat (roster ss) (mkDF ROSTER_COLUMNS [Roster.mk (isoformat rdate) rshift rdoc])) ss.

(** Ascending order of the key [(date, shift)]: both components are
    strings and are compared as strings. *)
Definition roster_le (a b : Roster.t) : bool :=
  match str_compare (Roster.date a) (Roster.date b) with
  | Lt => true
  | Gt => false
  | Eq => match str_compare (Roster.shift a) (Roster.shift b) with
          | Gt => false
          | _ => true
          end
  end.

(** The roster table (app.py 461): [roster.sort_values(by=["date","shift"])]. *)
Definition roster_table (ss : SessionState) : DataFrame Roster.t :=
  sort_values roster_le (roster ss).

(** "Send" (app.py 478-479); [now] is [datetime.utcnow().isoformat()]. *)
Definition send (msg now : pystr) (ss : SessionState) : SessionState :=
  if truthy msg then set_chat (chat ss ++ [Chat.mk now (py "Dr. Demo") msg]) ss
  else ss.

(** "Request Pilot" (app.py 275-282). *)
Definition request_pilot (org email use_case notes now : pystr)
    (ss : SessionState) : SessionState :=
  set_pilot_requests (pilot_requests ss ++ [Pilot.mk org email use_case notes now]) ss.

(* ===================================================================== *)
(** ** One script run *)
(* ===================================================================== *)

(** The values the widgets of the consumer page return in a run. *)
Record ConsumerWidgets : Type := mkConsumerWidgets {
  w_active : pystr; w_new_name : pystr;
  w_imms : pystr; w_alls : pystr; w_cond : pystr;
  w_meds_str : pystr;
  w_date : Date; w_time : Time;
  w_sys : Z; w_dia : Z; w_hr : Z; w_glu : Z;
  w_lab_text : pystr;
}.

(** The button whose click started the run, if any: [st.button] is true
    for one button at most. *)
Inductive ConsumerButton : Type :=
  | BtnAddProfile | BtnUpdatePassport | BtnSaveMedList | BtnAddEntry | BtnInterpret.

Record HospitalWidgets : Type := mkHospitalWidgets {
  w_pid : pystr; w_pname : pystr; w_page : Z; w_psex : pystr;
  w_pall : pystr; w_pcom : pystr;
  w_rdate : Date; w_rshift : pystr; w_rdoc : pystr;
  w_msg : pystr;
}.

Inductive HospitalButton : Type :=
  | BtnUpsertPatient | BtnAddToRoster | BtnGenerateRx | BtnSend.

Record PilotForm : Type := mkPilotForm {
  w_org : pystr; w_email : pystr; w_use_case : pystr; w_notes : pystr;
}.

(** The page chosen in the sidebar with its widget values and clicked
    button; [now] is the clock reading of the run. *)
Inductive Interaction : Type :=
  | HomePage (w : PilotForm) (submitted : bool) (now : pystr)
  | ConsumerPage (w : ConsumerWidgets) (b : option ConsumerButton)
  | HospitalPage (w : HospitalWidgets) (b : option HospitalButton) (now : pystr).

Definition clicked_consumer (b : option ConsumerButton) (x : ConsumerButton) : bool :=
  match b, x with
  | Some BtnAddProfile, BtnAddProfile
  | Some BtnUpdatePassport, BtnUpdatePassport
  | Some BtnSaveMedList, BtnSaveMedList
  | Some BtnAddEntry, BtnAddEntry
  | Some BtnInterpret, BtnInterpret => true
  | _, _ => false
  end.

Definition clicked_hospital (b : option HospitalButton) (x : HospitalButton) : bool :=
  match b, x with
  | Some BtnUpsertPatient, BtnUpsertPatient
  | Some BtnAddToRoster, BtnAddToRoster
  | Some BtnGenerateRx, BtnGenerateRx
  | Some BtnSend, BtnSend => true
  | _, _ => false
  end.

(** The consumer page, top to bottom (app.py 327-407). The reads of the
    active profile's passport and medication list are those that fill in
    the text fields. *)
Definition consumer_page (w : ConsumerWidgets) (b : option ConsumerButton)
    (ss : SessionState) : result SessionState :=
  ss ← select_active (w_active w) ss;
  let ss := if clicked_consumer b BtnAddProfile then add_profile (w_new_name w) ss else ss in
  _ ← getitem (passport ss) (active_profile ss);
  let ss := if clicked_consumer b BtnUpdatePassport
            then update_passport (w_imms w) (w_alls w) (w_cond w) ss else ss in
  _ ← passport_payload ss;
  _ ← getitem (meds ss) (active_profile ss);
  let ss := if clicked_consumer b BtnSaveMedList then save_med_list (w_meds_str w) ss else ss in
  ss ← (if clicked_consumer b BtnAddEntry
        then add_entry (w_date w) (w_time w) (w_sys w) (w_dia w) (w_hr w) (w_glu w) ss
        else Ok ss);
  _ ← vitals_table ss;
  mret (if clicked_consumer b BtnInterpret then interpret (w_lab_text w) ss else ss).

(** The hospital page (app.py 413-492); "Generate Rx" and the analytics
    tab only display. *)
Definition hospital_page (w : HospitalWidgets) (b : option HospitalButton)
    (now : pystr) (ss : SessionState) : SessionState :=
  let ss := if clicked_hospital b BtnUpsertPatient
            then upsert_patient (w_pid w) (w_pname w) (w_page w) (w_psex w)
                   (w_pall w) (w_pcom w) ss
            else ss in
  let ss := if clicked_hospital b BtnAddToRoster
            then add_to_roster (w_rdate w) (w_rshift w) (w_rdoc w) ss else ss in
  if clicked_hospital b BtnSend then send (w_msg w) now ss else ss.

(** The home page (app.py 187-321). *)
Definition home_page (w : PilotForm) (submitted : bool) (now : pystr)
    (ss : SessionState) : SessionState :=
  if submitted
  then request_pilot (w_org w) (w_email w) (w_use_case w) (w_notes w) now ss
  else ss.

Definition page (i : Interaction) (ss : SessionState) : result SessionState :=
  match i with
  | HomePage w submitted now => Ok (home_page w submitted now ss)
  | ConsumerPage w b => consumer_page w b ss
  | HospitalPage w b now => Ok (hospital_page w b now ss)
  end.

(** A whole run of the script on the stored session. *)
Definition run (i : Interaction) (raw : RawSession) : result SessionState :=
  page i (_init_state raw).

(** The widget values respect the widgets' declarations: a select box
    returns one of its options, a number input a value of its range. *)
Definition from_ui (ss : SessionState) (i : Interaction) : bool :=
  match i with
  | HomePage w _ _ => selectbox USE_CASE_OPTIONS (w_use_case w)
  | ConsumerPage w _ =>
      bool_decide (w_active w ∈ dom (profiles ss))
      && number_input SYSTOLIC (w_sys w) && number_input DIASTOLIC (w_dia w)
      && number_input HEART_RATE (w_hr w) && number_input GLUCOSE (w_glu w)
  | HospitalPage w _ _ =>
      number_input AGE (w_page w) && selectbox SEX_OPTIONS (w_psex w)
      && selectbox SHIFT_OPTIONS (w_rshift w)
  end.

(** A run started from the user interface. *)
Inductive step (ss ss' : SessionState) : Prop :=
  | step_run (i : Interaction) :
      from_ui ss i = true → run i (stored ss) = Ok ss' → step ss ss'.

(** The states a session goes through. *)
Inductive reachable : SessionState → Prop :=
  | reachable_initial : reachable initial
  | reachable_step ss ss' : reachable ss → step ss ss' → reachable ss'.

(* ===================================================================== *)
(** ** Derived notions used by the statements *)
(* ===================================================================== *)

(** [upsert_patient] called with the six fields of [r]. *)
Definition upsert_row (r : Patient.t) (ss : SessionState) : SessionState :=
  upsert_patient (Patient.id r) (Patient.name r) (Patient.age r) (Patient.sex r)
    (Patient.allergies r) (Patient.comorbidities r) ss.

(** The ["id"] column of the patient registry. *)
Definition patient_ids (ss : SessionState) : list pystr :=
  map Patient.id (rows (patients ss)).

(** The registry rows whose id is [pid]. *)
Definition patients_with_id (pid : pystr) (ss : SessionState) : list Patient.t :=
  List.filter (λ r, bool_decide (Patient.id r = pid)) (rows (patients ss)).

(** The vitals entries logged for profile [name], oldest first. *)
Definition vitals_log (name : pystr) (ss : SessionState) : list Vitals.t :=
  match vitals ss !! name with
  | Some df => rows df
  | None => []
  end.

(** Every profile has its four sub-collections, nothing else has one, and
    the active profile is a profile. *)
Definition coherent (ss : SessionState) : Prop :=
  dom (vitals ss) = dom (profiles ss)
  ∧ dom (meds ss) = dom (profiles ss)
  ∧ dom (records ss) = dom (profiles ss)
  ∧ dom (passport ss) = dom (profiles ss)
  ∧ active_profile ss ∈ dom (profiles ss).

(** The declared bounds of a vitals entry. *)
Definition within_bounds (e : Vitals.t) : bool :=
  number_input SYSTOLIC (Vitals.systolic e)
  && number_input DIASTOLIC (Vitals.diastolic e)
  && number_input HEART_RATE (Vitals.hr e)
  && number_input GLUCOSE (Vitals.glucose e).

(** The declared constraints of a patient record. *)
Definition valid_patient (r : Patient.t) : bool :=
  number_input AGE (Patient.age r) && selectbox SEX_OPTIONS (Patient.sex r).

(** The handler a consumer-page run executes. *)
Definition consumer_handler (w : ConsumerWidgets) (b : option ConsumerButton)
    (ss : SessionState) : result SessionState :=
  match b with
  | None => Ok ss
  | Some BtnAddProfile => Ok (add_profile (w_new_name w) ss)
  | Some BtnUpdatePassport => Ok (update_passport (w_imms w) (w_alls w) (w_cond w) ss)
  | Some BtnSaveMedList => Ok (save_med_list (w_meds_str w) ss)
  | Some BtnAddEntry =>
      add_entry (w_date w) (w_time w) (w_sys w) (w_dia w) (w_hr w) (w_glu w) ss
  | Some BtnInterpret => Ok (interpret (w_lab_text w) ss)
  end.

(** [append_entry] called once for each entry of [es], in order. *)
Fixpoint add_entries (es : list Vitals.t) (ss : SessionState) : result SessionState :=
  match es with
  | [] => Ok ss
  | e :: es' =>
      ss ← add_entry (Vitals.date e) (Vitals.time e) (Vitals.systolic e)
             (Vitals.diastolic e) (Vitals.hr e) (Vitals.glucose e) ss;
      add_entries es' ss
  end.

(** The document exported for a passport [p] of the profile [name]. *)
Definition passport_document (name : pystr) (p : Passport.t) : list (pystr * Json) :=
  [ (py "profile", JStr name);
    (py "immunizations", JList (Passport.immunizations p));
    (py "allergies", JList (Passport.allergies p));
    (py "conditions", JList (Passport.conditions p)) ].

(** [a <= b] on Python strings. *)
Definition str_le (a b : pystr) : Prop := str_compare a b ≠ Gt.

(** The date and time of the specification's scenarios. *)
Definition jan_1_2024 : Date := mkDate 2024 1 1.
Definition eight_am : Time := mkTime 8 0 0 0.
Definition scenario_entry : Vitals.t := Vitals.mk jan_1_2024 eight_am 120 80 72 95.

(** A new session in which profile "Sam" has been added and selected. *)
Definition sam_session : SessionState :=
  set_active_profile (py "Sam") (add_profile (py "Sam") initial).

(** What the widgets of the consumer page return on a new session when
    the user has typed "Sam" as the new profile name and touched nothing
    else. *)
Definition sam_typed : ConsumerWidgets :=
  mkConsumerWidgets (py "Me") (py "Sam") [] [] [] [] jan_1_2024 eight_am
    120 80 72 95 [].

(* ===================================================================== *)
(** ** Remaining views and helpers of the script *)
(* ===================================================================== *)

Definition COMMA_SPACE : pystr := py ", ".

(** The texts the three passport fields show before the user edits them
    (app.py 348-350): [", ".join(...)] of the active profile's lists. *)
Definition passport_fields (ss : SessionState) : result (pystr * pystr * pystr) :=
  p ← getitem (passport ss) (active_profile ss);
  mret (join COMMA_SPACE (Passport.immunizations p),
        join COMMA_SPACE (Passport.allergies p),
        join COMMA_SPACE (Passport.conditions p)).

(** The text the medication field shows before the user edits it
    (app.py 366). *)
Definition meds_field (ss : SessionState) : result pystr :=
  m ← getitem (meds ss) (active_profile ss);
  mret (join COMMA_SPACE m).

(** The interpreter display (app.py 405-407): [lab_text[:1000]] when the
    stored text is not empty. *)
Definition lab_view (ss : SessionState) : option pystr :=
  if truthy (lab_text ss) then Some (take 1000 (lab_text ss)) else None.

Definition PILOT_COLUMNS : list pystr :=
  [py "org"; py "email"; py "use_case"; py "notes"; py "created"].
Definition CHAT_COLUMNS : list pystr := [py "when"; py "who"; py "msg"].

(** The pilot request table (app.py 285-287): shown when there is a
    request, [pd.DataFrame(pilot_requests).tail(5)]. *)
Definition pilot_table (ss : SessionState) : option (DataFrame Pilot.t) :=
  match pilot_requests ss with
  | [] => None
  | _ :: _ => Some (tail 5 (mkDF PILOT_COLUMNS (pilot_requests ss)))
  end.

(** The chat table (app.py 480-481). *)
Definition chat_table (ss : SessionState) : option (DataFrame Chat.t) :=
  match chat ss with
  | [] => None
  | _ :: _ => Some (mkDF CHAT_COLUMNS (chat ss))
  end.

(** Truth value of an optional string argument: [None] and [""] are
    false. *)
Definition opt_truthy (o : option pystr) : bool :=
  match o with
  | Some s => truthy s
  | None => false
  end.

(** The string [html] that [render_card] builds (app.py 144-156). The
    [for] loop over the bullets is the left fold. *)
Definition card_html (title desc : pystr) (bullets : option (list pystr))
    (kpi cta_label key : option pystr) : pystr :=
  let html := py "<div class='card'>" in
  let html := html ++ (py "<h4>" ++ title ++ py "</h4>") in
  let html := match kpi with
              | Some k => if truthy k
                          then html ++ (py "<div class='kpi'>" ++ k ++ py "</div>")
                          else html
              | None => html
              end in
  let html := html ++ (py "<div class='small'>" ++ desc ++ py "</div>") in
  let html := match bullets with
              | Some (b :: bs) =>
                  let html := html ++ py "<ul class='feature-list'>" in
                  let html := foldl (λ html b, html ++ (py "<li>" ++ b ++ py "</li>"))
                                html (b :: bs) in
                  html ++ py "</ul>"
              | _ => html
              end in
  let html := match cta_label with
              | Some c => if truthy c
                          then html ++ (py "<a href='#' class='cta-button'>" ++ c ++ py "</a>")
                          else html
              | None => html
              end in
  html ++ py "</div>".

(** [render_card] (app.py 67-158): the markdown it emits, [card_css + html];
    the style sheet [card_css] is a constant of the function. *)
Definition render_card (card_css : pystr) (title desc : pystr)
    (bullets : option (list pystr)) (kpi cta_label key : option pystr) : pystr :=
  card_css ++ card_html title desc bullets kpi cta_label key.

(* ===================================================================== *)
(** ** Further notions used by the statements *)
(* ===================================================================== *)

(** An item as the comma conversion produces them: not empty, without a
    comma, and unchanged by [strip]. *)
Definition clean (x : pystr) : Prop := x ≠ [] ∧ (comma ∉ x) ∧ strip x = x.

(** Every passport list and medication list holds clean items only. *)
Definition clean_lists (ss : SessionState) : Prop :=
  (∀ name p, passport ss !! name = Some p →
     Forall clean (Passport.immunizations p)
     ∧ Forall clean (Passport.allergies p)
     ∧ Forall clean (Passport.conditions p))
  ∧ (∀ name m, meds ss !! name = Some m → Forall clean m).

(** A date [datetime.date] can hold. *)
Definition valid_date (d : Date) : Prop :=
  1 ≤ year d ≤ 9999 ∧ 1 ≤ month d ≤ 12 ∧ 1 ≤ day d ≤ 31.

(** Chronological comparison of two dates. *)
Definition date_compare (a b : Date) : comparison :=
  match year a ?= year b with
  | Eq => match month a ?= month b with
          | Eq => day a ?= day b
          | c => c
          end
  | c => c
  end.

(** The two column sets a vitals frame can have: those of the empty frame
    of [_init_state] and "Add Profile", and, once an entry is logged, these
    followed by the entry's keys they lack. *)
Definition LOGGED_COLUMNS : list pystr := VITALS_COLUMNS ++ [py "date"; py "time"].

Definition vitals_frame_ok (df : DataFrame Vitals.t) : Prop :=
  (columns df = VITALS_COLUMNS ∧ rows df = [])
  ∨ (columns df = LOGGED_COLUMNS ∧ rows df ≠ []).

(** A chat message as "Send" makes them. *)
Definition demo_message (m : Chat.t) : Prop :=
  Chat.msg m ≠ [] ∧ Chat.who m = py "Dr. Demo".

(** A roster row as the widgets of "Add to Roster" make them. *)
Definition roster_entry_ok (r : Roster.t) : Prop :=
  Roster.shift r ∈ SHIFT_OPTIONS ∧ length (Roster.date r) = 10%nat.

(** The [<li>] items of a card, one per bullet, in order. *)
Definition card_items (bullets : list pystr) : pystr :=
  mjoin (map (λ b, py "<li>" ++ b ++ py "</li>") bullets).

(** The three optional parts of a card as text; each is empty when the
    argument is absent or empty. *)
Definition card_kpi (kpi : option pystr) : pystr :=
  match kpi with
  | Some (c :: k) => py "<div class='kpi'>" ++ (c :: k) ++ py "</div>"
  | _ => []
  end.
Definition card_list (bullets : option (list pystr)) : pystr :=
  match bullets with
  | Some (b :: bs) => py "<ul class='feature-list'>" ++ card_items (b :: bs) ++ py "</ul>"
  | _ => []
  end.
Definition card_cta (cta_label : option pystr) : pystr :=
  match cta_label with
  | Some (c :: l) => py "<a href='#' class='cta-button'>" ++ (c :: l) ++ py "</a>"
  | _ => []
  end.

(** Eight entries that differ in their systolic value, oldest first. *)
Definition eight_entries : list Vitals.t :=
  map (λ sys, Vitals.mk jan_1_2024 eight_am sys 80 72 95)
    [111; 112; 113; 114; 115; 116; 117; 118].


(** A consumer-page run with the fields left as displayed and the given
    button clicked. *)
Definition untouched (ss : SessionState) (w : ConsumerWidgets) : Prop :=
  w_active w = active_profile ss
  ∧ passport_fields ss = Ok (w_imms w, w_alls w, w_cond w)
  ∧ meds_field ss = Ok (w_meds_str w).

(** A new session after "Update Passport" with the immunizations text
    " A ,B,, ", and the widget values of the next run when the user edits
    nothing: the fields show the stored lists joined with ", ". *)
Definition ab_typed : ConsumerWidgets :=
  mkConsumerWidgets (py "Me") [] (py " A ,B,, ") [] [] [] jan_1_2024 eight_am
    120 80 72 95 [].
Definition ab_session : SessionState := update_passport (py " A ,B,, ") [] [] initial.
Definition ab_shown : ConsumerWidgets :=
  mkConsumerWidgets (py "Me") [] (py "A, B") [] [] [] jan_1_2024 eight_am
    120 80 72 95 [].

(* ===================================================================== *)
(** ** Basic facts *)
(* ===================================================================== *)

Example comma_list_meds :
  comma_list (py " aspirin ,  , ibuprofen") = [py "aspirin"; py "ibuprofen"].
Proof. reflexivity. Qed.

Lemma init_state_stored ss : _init_state (stored ss) = ss.
Proof. by destruct ss. Qed.

Lemma bind_Ok {A B} (m : result A) (f : A → result B) b :
  m ≫= f = Ok b → ∃ a, m = Ok a ∧ f a = Ok b.
Proof. destruct m as [a|e]; [by exists a | done]. Qed.

Lemma getitem_Ok {V} (d : gmap pystr V) k v : getitem d k = Ok v ↔ d !! k = Some v.
Proof. unfold getitem. destruct (d !! k); naive_solver. Qed.

Lemma getitem_dom {V} (d : gmap pystr V) k : k ∈ dom d → ∃ v, getitem d k = Ok v.
Proof.
  intros [v Hv]%elem_of_dom. exists v. by apply getitem_Ok.
Qed.

Lemma patient_eta r :
  Patient.mk (Patient.id r) (Patient.name r) (Patient.age r) (Patient.sex r)
    (Patient.allergies r) (Patient.comorbidities r) = r.
Proof. by destruct r. Qed.

Lemma upsert_row_rows r ss :
  rows (patients (upsert_row r ss))
  = List.filter (λ x, bool_decide (Patient.id x ≠ Patient.id r)) (rows (patients ss)) ++ [r].
Proof. unfold upsert_row, upsert_patient. simpl. by rewrite patient_eta. Qed.

Section Registry.
Variable pid : pystr.

Let keep (x : Patient.t) : bool := bool_decide (Patient.id x ≠ pid).
Let same (x : Patient.t) : bool := bool_decide (Patient.id x = pid).

Lemma kept_ids_exclude l : pid ∉ map Patient.id (List.filter keep l).
Proof.
  induction l as [|x l IH]; simpl; [by apply not_elem_of_nil|].
  unfold keep at 1. destruct (decide (Patient.id x ≠ pid)) as [Hne|Heq].
  - rewrite bool_decide_eq_true_2 by done. simpl.
    rewrite elem_of_cons. intros [Heq|Hin]; [by apply Hne | by apply IH].
  - by rewrite bool_decide_eq_false_2.
Qed.

Lemma kept_ids_NoDup l :
  NoDup (map Patient.id l) → NoDup (map Patient.id (List.filter keep l)).
Proof.
  induction l as [|x l IH]; simpl; [done|].
  rewrite NoDup_cons. intros [Hx Hl].
  destruct (keep x); simpl; [|by auto].
  apply NoDup_cons. split; [|by auto].
  intros Hin. apply Hx.
  apply list_elem_of_fmap in Hin as (y & Hy & Hin).
  apply list_elem_of_fmap. exists y. split; [done|].
  apply list_elem_of_In, filter_In in Hin. apply list_elem_of_In. tauto.
Qed.

Lemma same_of_kept l : List.filter same (List.filter keep l) = [].
Proof.
  induction l as [|x l IH]; simpl; [done|].
  unfold keep at 1. destruct (decide (Patient.id x ≠ pid)) as [Hne|Heq].
  - rewrite bool_decide_eq_true_2 by done. simpl.
    unfold same at 1. by rewrite bool_decide_eq_false_2.
  - by rewrite bool_decide_eq_false_2.
Qed.

End Registry.

Lemma upsert_row_NoDup r ss :
  NoDup (patient_ids ss) → NoDup (patient_ids (upsert_row r ss)).
Proof.
  unfold patient_ids. rewrite upsert_row_rows, map_app. simpl. intros Hnd.
  apply NoDup_app. split_and!.
  - by apply kept_ids_NoDup.
  - intros x Hx Hr. apply list_elem_of_singleton in Hr as ->.
    by apply kept_ids_exclude in Hx.
  - apply NoDup_singleton.
Qed.

Lemma upsert_row_only r ss : patients_with_id (Patient.id r) (upsert_row r ss) = [r].
Proof.
  unfold patients_with_id. rewrite upsert_row_rows, List.filter_app, same_of_kept.
  simpl. by rewrite bool_decide_eq_true_2.
Qed.

Lemma upsert_calls_NoDup calls ss :
  NoDup (patient_ids ss) →
  NoDup (patient_ids (foldl (λ s r, upsert_row r s) ss calls)).
Proof.
  revert ss. induction calls as [|r calls IH]; intros ss Hnd; simpl; [done|].
  by apply IH, upsert_row_NoDup.
Qed.

(* ===================================================================== *)
(** ** The session never loses coherence *)
(* ===================================================================== *)

Lemma coherent_initial : coherent initial.
Proof.
  unfold coherent, initial, _init_state; simpl.
  rewrite !dom_singleton_L. split_and!; try done; by apply elem_of_singleton.
Qed.

Lemma select_active_Ok active ss ss' :
  select_active active ss = Ok ss' →
  ss' = set_active_profile active ss ∧ active_profile ss ∈ dom (profiles ss).
Proof.
  unfold select_active. case_bool_decide as Hin; [|done].
  intros [= <-]. split; [|done].
  case_bool_decide as Hne; [done|].
  subst active. by destruct ss.
Qed.

Lemma select_active_coherent active ss :
  coherent ss → active ∈ dom (profiles ss) →
  select_active active ss = Ok (set_active_profile active ss)
  ∧ coherent (set_active_profile active ss).
Proof.
  intros (Hv & Hm & Hr & Hp & Ha) Hin. split.
  - unfold select_active. rewrite bool_decide_eq_true_2 by done.
    case_bool_decide as Hne; [done|].
    subst active. by destruct ss.
  - by split_and!.
Qed.

Lemma add_profile_coherent new_name ss : coherent ss → coherent (add_profile new_name ss).
Proof.
  intros (Hv & Hm & Hr & Hp & Ha). unfold add_profile, coherent.
  destruct (truthy new_name && _); [|done]. simpl.
  rewrite !dom_insert_L, Hv, Hm, Hr, Hp. split_and!; try done. by apply elem_of_union_r.
Qed.

Lemma update_passport_coherent imms alls cond ss :
  coherent ss → coherent (update_passport imms alls cond ss).
Proof.
  intros (Hv & Hm & Hr & Hp & Ha). unfold update_passport, coherent. simpl.
  rewrite dom_insert_lookup_L; [done|]. apply elem_of_dom. by rewrite Hp.
Qed.

Lemma save_med_list_coherent meds_str ss :
  coherent ss → coherent (save_med_list meds_str ss).
Proof.
  intros (Hv & Hm & Hr & Hp & Ha). unfold save_med_list, coherent. simpl.
  rewrite dom_insert_lookup_L; [done|]. apply elem_of_dom. by rewrite Hm.
Qed.

Lemma add_entry_Ok date time sys dia hr glu ss ss' :
  add_entry date time sys dia hr glu ss = Ok ss' ↔
  ∃ df, vitals ss !! active_profile ss = Some df
        ∧ ss' = set_vitals
                  (<[active_profile ss :=
                       concat df (mkDF ENTRY_COLUMNS [Vitals.mk date time sys dia hr glu])]>
                     (vitals ss)) ss.
Proof.
  unfold add_entry. split.
  - intros (df & Hdf%getitem_Ok & [= <-])%bind_Ok. by exists df.
  - intros (df & Hdf%getitem_Ok & ->). by rewrite Hdf.
Qed.

Lemma add_entry_coherent date time sys dia hr glu ss :
  coherent ss →
  ∃ ss', add_entry date time sys dia hr glu ss = Ok ss' ∧ coherent ss'.
Proof.
  intros (Hv & Hm & Hr & Hp & Ha).
  assert (is_Some (vitals ss !! active_profile ss)) as [df Hdf].
  { apply elem_of_dom. by rewrite Hv. }
  eexists. split; [apply add_entry_Ok; eauto|].
  unfold coherent. simpl. rewrite dom_insert_lookup_L; by eauto.
Qed.

Lemma consumer_page_coherent w b ss :
  coherent ss → w_active w ∈ dom (profiles ss) →
  ∃ ss', consumer_page w b ss = Ok ss' ∧ coherent ss'.
Proof.
  intros Hc Hin. unfold consumer_page.
  destruct (select_active_coherent _ _ Hc Hin) as [-> Hc1]. simpl.
  set (ss1 := if clicked_consumer b BtnAddProfile then _ else _).
  assert (coherent ss1) as Hc2.
  { subst ss1. destruct (clicked_consumer _ _); [by apply add_profile_coherent|done]. }
  clearbody ss1.
  destruct (getitem_dom (passport ss1) (active_profile ss1)) as [p ->].
  { destruct Hc2 as (_ & _ & _ & -> & ?). done. }
  simpl.
  set (ss2 := if clicked_consumer b BtnUpdatePassport then _ else _).
  assert (coherent ss2) as Hc3.
  { subst ss2. destruct (clicked_consumer _ _); [by apply update_passport_coherent|done]. }
  clearbody ss2. unfold passport_payload.
  destruct (getitem_dom (passport ss2) (active_profile ss2)) as [p2 ->].
  { destruct Hc3 as (_ & _ & _ & -> & ?). done. }
  simpl.
  destruct (getitem_dom (meds ss2) (active_profile ss2)) as [m ->].
  { destruct Hc3 as (_ & -> & _ & _ & ?). done. }
  simpl.
  set (ss3 := if clicked_consumer b BtnSaveMedList then _ else _).
  assert (coherent ss3) as Hc4.
  { subst ss3. destruct (clicked_consumer _ _); [by apply save_med_list_coherent|done]. }
  clearbody ss3.
  assert (∃ ss4, (if clicked_consumer b BtnAddEntry
                  then add_entry (w_date w) (w_time w) (w_sys w) (w_dia w) (w_hr w) (w_glu w) ss3
                  else Ok ss3) = Ok ss4 ∧ coherent ss4) as (ss4 & -> & Hc5).
  { destruct (clicked_consumer _ _); [by apply add_entry_coherent | by exists ss3]. }
  simpl. unfold vitals_table.
  destruct (getitem_dom (vitals ss4) (active_profile ss4)) as [df ->].
  { destruct Hc5 as (-> & _ & _ & _ & ?). done. }
  simpl. eexists. split; [done|].
  destruct (clicked_consumer _ _); done.
Qed.

Lemma hospital_page_frame w b now ss :
  let ss' := hospital_page w b now ss in
  active_profile ss' = active_profile ss ∧ profiles ss' = profiles ss
  ∧ vitals ss' = vitals ss ∧ meds ss' = meds ss ∧ records ss' = records ss
  ∧ passport ss' = passport ss.
Proof.
  unfold hospital_page, send.
  destruct b as [[]|]; simpl; try done. by destruct (truthy _).
Qed.

Lemma home_page_frame w submitted now ss :
  let ss' := home_page w submitted now ss in
  active_profile ss' = active_profile ss ∧ profiles ss' = profiles ss
  ∧ vitals ss' = vitals ss ∧ meds ss' = meds ss ∧ records ss' = records ss
  ∧ passport ss' = passport ss ∧ patients ss' = patients ss.
Proof. unfold home_page. by destruct submitted. Qed.

Lemma step_coherent ss ss' : coherent ss → step ss ss' → coherent ss'.
Proof.
  intros Hc [i Hui Hrun]. unfold run in Hrun. rewrite init_state_stored in Hrun.
  destruct i as [w submitted now | w b | w b now]; simpl in *.
  - injection Hrun as <-.
    destruct (home_page_frame w submitted now ss) as (Ha & Hp & Hv & Hm & Hr & Hpp & _).
    unfold coherent. by rewrite Ha, Hp, Hv, Hm, Hr, Hpp.
  - destruct (consumer_page_coherent w b ss Hc) as (ss1 & Heq & Hc1).
    { repeat (apply andb_prop in Hui as [Hui ?]). by apply bool_decide_eq_true in Hui. }
    congruence.
  - injection Hrun as <-.
    destruct (hospital_page_frame w b now ss) as (Ha & Hp & Hv & Hm & Hr & Hpp).
    unfold coherent. by rewrite Ha, Hp, Hv, Hm, Hr, Hpp.
Qed.

Lemma reachable_coherent ss : reachable ss → coherent ss.
Proof.
  induction 1 as [|ss ss' _ IH Hstep]; [apply coherent_initial | by eapply step_coherent].
Qed.

(** A state other than the initial one is reached: clicking "Add Profile"
    with the name "Sam" on a new session. *)
Example reachable_after_add_profile :
  ∃ ss, run (ConsumerPage sam_typed (Some BtnAddProfile)) fresh_session = Ok ss
        ∧ reachable ss
        ∧ size (profiles ss) = 2%nat
        ∧ passport ss !! py "Sam" = Some (Passport.mk [] [] []).
Proof.
  eexists. split; [vm_compute; reflexivity|]. split_and!.
  - apply (reachable_step initial); [apply reachable_initial|].
    apply (step_run _ _ (ConsumerPage sam_typed (Some BtnAddProfile)));
      vm_compute; reflexivity.
  - vm_compute; reflexivity.
  - vm_compute; reflexivity.
Qed.

(* ===================================================================== *)
(** ** What one run changes *)
(* ===================================================================== *)

Ltac bind_inv H :=
  repeat (let a := fresh "a" in
          let Ha := fresh "Ha" in
          apply bind_Ok in H as (a & Ha & H); cbv beta zeta in H).

(** A run of the consumer page that completes has selected the profile
    and run the clicked button's handler, nothing else. *)
Lemma consumer_page_Ok w b ss ss' :
  consumer_page w b ss = Ok ss' →
  consumer_handler w b (set_active_profile (w_active w) ss) = Ok ss'.
Proof.
  unfold consumer_page. intros H.
  apply bind_Ok in H as (ss1 & [-> _]%select_active_Ok & H).
  destruct b as [[]|]; simpl in H |- *; bind_inv H;
    try (injection H as <-); done.
Qed.

Lemma consumer_handler_frame w b ss ss' :
  consumer_handler w b ss = Ok ss' →
  patients ss' = patients ss ∧ roster ss' = roster ss ∧ chat ss' = chat ss
  ∧ pilot_requests ss' = pilot_requests ss ∧ active_profile ss' = active_profile ss.
Proof.
  destruct b as [[]|]; simpl.
  - intros [= <-]. unfold add_profile. by destruct (truthy _ && _).
  - by intros [= <-].
  - by intros [= <-].
  - by intros (df & _ & ->)%add_entry_Ok.
  - by intros [= <-].
  - by intros [= <-].
Qed.

Lemma page_patients i ss ss' :
  page i ss = Ok ss' →
  patients ss' = patients ss
  ∨ ∃ w, patients ss' = patients (upsert_row w ss) ∧
         (from_ui ss i = true → valid_patient w = true).
Proof.
  destruct i as [w submitted now | w b | w b now]; simpl.
  - intros [= <-]. left. by destruct (home_page_frame w submitted now ss) as (_&_&_&_&_&_&?).
  - intros H%consumer_page_Ok. left.
    by destruct (consumer_handler_frame _ _ _ _ H) as (-> & _).
  - intros [= <-]. unfold hospital_page, send.
    destruct b as [[]|]; simpl; try (by left); [|by destruct (truthy _); left].
    right. exists (Patient.mk (w_pid w) (w_pname w) (w_page w) (w_psex w) (w_pall w) (w_pcom w)).
    split; [done|]. unfold valid_patient. simpl.
    intros [[-> ->]%andb_prop _]%andb_prop. done.
Qed.

Lemma reachable_patients_NoDup ss : reachable ss → NoDup (patient_ids ss).
Proof.
  induction 1 as [|ss ss' _ IH [i Hui Hrun]].
  - apply NoDup_nil_2.
  - unfold run in Hrun. rewrite init_state_stored in Hrun.
    destruct (page_patients _ _ _ Hrun) as [Heq | (w & Heq & _)];
      unfold patient_ids in *; rewrite Heq; [done|].
    by apply upsert_row_NoDup.
Qed.

(** C1. Whatever sequence of [upsert_patient] calls is made on a new
    session, and in every state a session reaches, no two registry rows
    share an id. An upsert keeps the rows with another id in their order
    and puts the new row last; afterwards the rows with the given id are
    exactly that one row, so a second call for the same id, with the same
    or with different values, leaves only the second call's row, in last
    position. *)
Theorem upsert_patient_unique_ids :
  (∀ calls : list Patient.t,
      NoDup (patient_ids (foldl (λ s r, upsert_row r s) initial calls)))
  ∧ (∀ ss, reachable ss → NoDup (patient_ids ss))
  ∧ (∀ ss pid pname page psex pall pcom,
      let r := Patient.mk pid pname page psex pall pcom in
      let ss' := upsert_patient pid pname page psex pall pcom ss in
      rows (patients ss')
      = List.filter (λ x, bool_decide (Patient.id x ≠ pid)) (rows (patients ss)) ++ [r]
      ∧ patients_with_id pid ss' = [r]
      ∧ last (rows (patients ss')) = Some r
      ∧ (NoDup (patient_ids ss) → NoDup (patient_ids ss')))
  ∧ (∀ ss pid pname1 page1 psex1 pall1 pcom1 pname2 page2 psex2 pall2 pcom2,
      let ss' := upsert_patient pid pname2 page2 psex2 pall2 pcom2
                   (upsert_patient pid pname1 page1 psex1 pall1 pcom1 ss) in
      patients_with_id pid ss' = [Patient.mk pid pname2 page2 psex2 pall2 pcom2]
      ∧ last (rows (patients ss')) = Some (Patient.mk pid pname2 page2 psex2 pall2 pcom2)
      ∧ length (rows (patients ss'))
        = length (rows (patients (upsert_patient pid pname1 page1 psex1 pall1 pcom1 ss)))).
Proof.
  split_and!.
  - intros calls. apply upsert_calls_NoDup. apply NoDup_nil_2.
  - apply reachable_patients_NoDup.
  - intros ss pid pname page psex pall pcom r ss'.
    change ss' with (upsert_row r ss). change pid with (Patient.id r).
    split_and!.
    + apply upsert_row_rows.
    + apply upsert_row_only.
    + rewrite upsert_row_rows. apply last_snoc.
    + apply upsert_row_NoDup.
  - intros ss pid pname1 page1 psex1 pall1 pcom1 pname2 page2 psex2 pall2 pcom2 ss'.
    set (r1 := Patient.mk pid pname1 page1 psex1 pall1 pcom1).
    set (r2 := Patient.mk pid pname2 page2 psex2 pall2 pcom2).
    change ss' with (upsert_row r2 (upsert_row r1 ss)).
    split_and!.
    + apply (upsert_row_only r2).
    + rewrite upsert_row_rows. apply last_snoc.
    + rewrite (upsert_row_rows r2), (upsert_row_rows r1). simpl Patient.id.
      rewrite List.filter_app. simpl.
      rewrite bool_decide_eq_false_2 by (intros Hne; by apply Hne).
      rewrite app_nil_r, !length_app. simpl. f_equal.
      f_equal. clear. induction (rows (patients ss)) as [|x l IH]; simpl; [done|].
      destruct (bool_decide (Patient.id x ≠ pid)) eqn:E; simpl; rewrite ?E; simpl; by rewrite IH.
Qed.

(* ===================================================================== *)
(** ** Vitals log *)
(* ===================================================================== *)

Lemma add_entry_log date time sys dia hr glu ss ss' name :
  add_entry date time sys dia hr glu ss = Ok ss' →
  vitals_log name ss'
  = if decide (name = active_profile ss)
    then vitals_log name ss ++ [Vitals.mk date time sys dia hr glu]
    else vitals_log name ss.
Proof.
  intros (df & Hdf & ->)%add_entry_Ok. unfold vitals_log. simpl.
  destruct (decide (name = active_profile ss)) as [->|Hne].
  - by rewrite lookup_insert_eq, Hdf.
  - by rewrite lookup_insert_ne.
Qed.

Lemma add_profile_log new_name ss name :
  dom (vitals ss) = dom (profiles ss) →
  vitals_log name (add_profile new_name ss) = vitals_log name ss.
Proof.
  intros Hdom. unfold add_profile.
  destruct (truthy new_name); simpl; [|done].
  case_bool_decide as Hnew; simpl; [|done].
  unfold vitals_log. simpl.
  destruct (decide (new_name = name)) as [->|Hne].
  - rewrite lookup_insert_eq. rewrite <- Hdom in Hnew.
    apply not_elem_of_dom in Hnew. by rewrite Hnew.
  - by rewrite lookup_insert_ne.
Qed.

(** A run leaves every log as it was or adds one entry at its end. *)
Lemma page_vitals_log i ss ss' name :
  coherent ss → page i ss = Ok ss' →
  vitals_log name ss' = vitals_log name ss
  ∨ ∃ e, vitals_log name ss' = vitals_log name ss ++ [e]
         ∧ (from_ui ss i = true → within_bounds e = true).
Proof.
  intros (Hv & _) Hpage.
  destruct i as [w submitted now | w b | w b now]; simpl in Hpage.
  - injection Hpage as <-. left. unfold vitals_log.
    by destruct (home_page_frame w submitted now ss) as (_ & _ & -> & _).
  - apply consumer_page_Ok in Hpage.
    destruct b as [[]|]; simpl in Hpage; try (injection Hpage as <-); try (by left).
    + left. by rewrite add_profile_log.
    + rewrite (add_entry_log _ _ _ _ _ _ _ _ name Hpage). simpl.
      destruct (decide _); [right | by left].
      eexists. split; [done|]. simpl. unfold within_bounds. simpl.
      intros H. apply andb_prop in H as [H H0]. apply andb_prop in H as [H H1].
      apply andb_prop in H as [H H2]. apply andb_prop in H as [H H3].
      by rewrite H0, H1, H2, H3.
  - injection Hpage as <-. left. unfold vitals_log.
    by destruct (hospital_page_frame w b now ss) as (_ & _ & -> & _).
Qed.

Lemma reachable_within_bounds ss name :
  reachable ss → Forall (λ e, within_bounds e = true) (vitals_log name ss).
Proof.
  induction 1 as [|ss ss' Hreach IH [i Hui Hrun]].
  - unfold vitals_log, initial, _init_state. simpl.
    destruct (decide (name = Me)) as [->|Hne].
    + by rewrite lookup_singleton_eq.
    + by rewrite lookup_singleton_ne.
  - unfold run in Hrun. rewrite init_state_stored in Hrun.
    destruct (page_vitals_log i ss ss' name (reachable_coherent _ Hreach) Hrun)
      as [-> | (e & -> & He)]; [done|].
    apply Forall_app. split; [done|]. apply Forall_singleton. by apply He.
Qed.

Lemma number_input_spec w v :
  number_input w v = true ↔ min_value w ≤ v ≤ max_value w.
Proof. unfold number_input. rewrite andb_true_iff, !Z.leb_le. done. Qed.

(** C2, as amended. The handler behind [append_entry] checks no bound:
    called directly, with values inside or outside the declared ranges, it
    appends the entry to the log of the active profile and raises nothing.
    The ranges 80-220, 40-130, 40-200 and 60-400 are those of the four
    number inputs, both ends included, so that the logs of a session driven
    through the user interface hold only entries within them. *)
Theorem add_entry_appends_unchecked ss date time sys dia hr glu
    (Hlog : active_profile ss ∈ dom (vitals ss)) :
  (∃ ss', add_entry date time sys dia hr glu ss = Ok ss'
          ∧ vitals_log (active_profile ss) ss'
            = vitals_log (active_profile ss) ss ++ [Vitals.mk date time sys dia hr glu])
  ∧ (within_bounds (Vitals.mk date time sys dia hr glu) = true
     ↔ 80 ≤ sys ≤ 220 ∧ 40 ≤ dia ≤ 130 ∧ 40 ≤ hr ≤ 200 ∧ 60 ≤ glu ≤ 400)
  ∧ (∀ s name, reachable s → Forall (λ e, within_bounds e = true) (vitals_log name s)).
Proof.
  split_and!.
  - apply elem_of_dom in Hlog as [df Hdf].
    eexists. split; [apply add_entry_Ok; eauto|].
    unfold vitals_log. simpl. by rewrite lookup_insert_eq, Hdf.
  - unfold within_bounds. simpl. rewrite !andb_true_iff, !number_input_spec. simpl. tauto.
  - intros s name. apply reachable_within_bounds.
Qed.

(** The amended C2 at systolic 79 on a new session: the entry is logged. *)
Lemma add_entry_appends_unchecked_witness :
  (∃ ss', add_entry jan_1_2024 eight_am 79 80 72 95 initial = Ok ss'
          ∧ vitals_log (active_profile initial) ss'
            = vitals_log (active_profile initial) initial
              ++ [Vitals.mk jan_1_2024 eight_am 79 80 72 95])
  ∧ (within_bounds (Vitals.mk jan_1_2024 eight_am 79 80 72 95) = true
     ↔ 80 ≤ 79 ≤ 220 ∧ 40 ≤ 80 ≤ 130 ∧ 40 ≤ 72 ≤ 200 ∧ 60 ≤ 95 ≤ 400)
  ∧ (∀ s name, reachable s → Forall (λ e, within_bounds e = true) (vitals_log name s)).
Proof.
  apply (add_entry_appends_unchecked initial jan_1_2024 eight_am 79 80 72 95).
  apply elem_of_dom. by eexists.
Defined.

(** C2 as stated fails: with systolic 79, below the minimum, a direct call
    on a new session does not fail and the log, empty before, holds the
    out-of-range entry. *)
Lemma add_entry_accepts_systolic_79 :
  within_bounds (Vitals.mk jan_1_2024 eight_am 79 80 72 95) = false
  ∧ vitals_log Me initial = []
  ∧ ∃ ss', add_entry jan_1_2024 eight_am 79 80 72 95 initial = Ok ss'
           ∧ vitals_log Me ss' = [Vitals.mk jan_1_2024 eight_am 79 80 72 95].
Proof.
  split_and!; [done | done |].
  eexists. split; [reflexivity|]. reflexivity.
Qed.

(* ===================================================================== *)
(** ** Patient registry: validation *)
(* ===================================================================== *)

Lemma reachable_valid_patients ss :
  reachable ss → Forall (λ r, valid_patient r = true) (rows (patients ss)).
Proof.
  induction 1 as [|ss ss' _ IH [i Hui Hrun]]; [by apply Forall_nil|].
  unfold run in Hrun. rewrite init_state_stored in Hrun.
  destruct (page_patients _ _ _ Hrun) as [-> | (w & -> & Hw)]; [done|].
  rewrite upsert_row_rows. apply Forall_app. split.
  - apply Forall_forall. intros x Hx%list_elem_of_In%filter_In.
    rewrite Forall_forall in IH. apply IH, list_elem_of_In. tauto.
  - apply Forall_singleton. by apply Hw.
Qed.

(** C8, as amended. The handler behind [upsert_patient] checks neither the
    age nor the sex: called directly with any values it removes the rows
    with the given id and adds the new row. The range 0-120 and the three
    values M, F, Other are those of the age number input and of the sex
    select box, so that the registry of a session driven through the user
    interface holds only rows that satisfy them. *)
Theorem upsert_patient_unchecked :
  (∀ ss pid pname page psex pall pcom,
      rows (patients (upsert_patient pid pname page psex pall pcom ss))
      = List.filter (λ x, bool_decide (Patient.id x ≠ pid)) (rows (patients ss))
        ++ [Patient.mk pid pname page psex pall pcom])
  ∧ (∀ r, valid_patient r = true
          ↔ 0 ≤ Patient.age r ≤ 120
            ∧ (Patient.sex r = py "M" ∨ Patient.sex r = py "F" ∨ Patient.sex r = py "Other"))
  ∧ (∀ ss, reachable ss → Forall (λ r, valid_patient r = true) (rows (patients ss))).
Proof.
  split_and!.
  - intros ss pid pname page psex pall pcom.
    apply (upsert_row_rows (Patient.mk pid pname page psex pall pcom)).
  - intros r. unfold valid_patient, selectbox, SEX_OPTIONS.
    rewrite andb_true_iff, number_input_spec, bool_decide_eq_true. simpl.
    rewrite !elem_of_cons, elem_of_nil. tauto.
  - apply reachable_valid_patients.
Qed.

(** C8 as stated fails: a direct call with age 121 and a sex that is none
    of the three values does not fail, and the registry, empty before,
    holds the row. *)
Lemma upsert_patient_accepts_invalid :
  valid_patient (Patient.mk (py "A1") (py "Jane") 121 (py "X") (py "none") (py "none"))
  = false
  ∧ number_input AGE 121 = false
  ∧ selectbox SEX_OPTIONS (py "X") = false
  ∧ rows (patients initial) = []
  ∧ rows (patients (upsert_patient (py "A1") (py "Jane") 121 (py "X") (py "none")
                      (py "none") initial))
    = [Patient.mk (py "A1") (py "Jane") 121 (py "X") (py "none") (py "none")].
Proof. by split_and!. Qed.

(* ===================================================================== *)
(** ** Comma-separated text *)
(* ===================================================================== *)

Lemma split_nonempty sep s : split sep s ≠ [].
Proof. destruct s as [|c s]; simpl; [done|]. destruct (c =? sep)%N, (split sep s); done. Qed.

(** The fragments of a split hold no separator and joining them with the
    separator gives the string back. *)
Lemma split_join sep s :
  join [sep] (split sep s) = s ∧ Forall (λ frag, sep ∉ frag) (split sep s).
Proof.
  induction s as [|c s [IHj IHf]]; simpl.
  - split; [done|]. apply Forall_singleton, not_elem_of_nil.
  - destruct (N.eqb_spec c sep) as [->|Hne].
    + split.
      * pose proof (split_nonempty sep s) as Hs.
        destruct (split sep s) as [|frag frags]; [done|]. simpl in *. by rewrite IHj.
      * apply Forall_cons. split; [apply not_elem_of_nil | done].
    + pose proof (split_nonempty sep s) as Hs.
      destruct (split sep s) as [|frag frags]; [done|].
      split.
      * destruct frags; simpl in *; by rewrite <- IHj.
      * apply Forall_cons in IHf as [Hfrag Hfrags]. apply Forall_cons. split; [|done].
        rewrite elem_of_cons. intros [Heq|Hin]; [by apply Hne | by apply Hfrag].
Qed.

Lemma lstrip_spec s :
  ∃ pre, s = pre ++ lstrip s
         ∧ Forall (λ c, is_space c = true) pre
         ∧ ∀ c, head (lstrip s) = Some c → is_space c = false.
Proof.
  induction s as [|c s (pre & Hs & Hpre & Hhead)]; simpl.
  - exists []. split_and!; [done | done | by intros c [=]].
  - destruct (is_space c) eqn:Hc.
    + exists (c :: pre). split_and!; [by rewrite Hs at 1 | by apply Forall_cons | done].
    + exists []. split_and!; [done | done | by intros c' [= <-]].
Qed.

Lemma last_rev_head {A} (l : list A) : last (rev l) = head l.
Proof. destruct l as [|x l]; simpl; [done | apply last_snoc]. Qed.

Lemma rstrip_spec s :
  ∃ post, s = rstrip s ++ post
          ∧ Forall (λ c, is_space c = true) post
          ∧ ∀ c, last (rstrip s) = Some c → is_space c = false.
Proof.
  unfold rstrip. destruct (lstrip_spec (rev s)) as (pre & Hs & Hpre & Hhead).
  exists (rev pre). split_and!.
  - rewrite <- rev_app_distr, <- Hs. by rewrite rev_involutive.
  - by apply Forall_rev.
  - intros c. rewrite last_rev_head. apply Hhead.
Qed.

(** [strip] removes a run of white space at each end and leaves a string
    that neither starts nor ends with white space. *)
Lemma strip_spec s :
  ∃ pre post, s = pre ++ strip s ++ post
              ∧ Forall (λ c, is_space c = true) pre
              ∧ Forall (λ c, is_space c = true) post
              ∧ (∀ c, head (strip s) = Some c → is_space c = false)
              ∧ (∀ c, last (strip s) = Some c → is_space c = false).
Proof.
  unfold strip.
  destruct (lstrip_spec s) as (pre & Hs & Hpre & Hhead).
  destruct (rstrip_spec (lstrip s)) as (post & Ht & Hpost & Hlast).
  exists pre, post. split_and!; try done.
  - by rewrite <- Ht.
  - intros c Hc. apply Hhead. rewrite Ht.
    destruct (rstrip (lstrip s)); [done|]. done.
Qed.

(** The comprehension keeps, in order, the non-empty stripped fragments. *)
Lemma strip_nonempty_spec frags :
  strip_nonempty frags = filter (λ x, x ≠ []) (strip <$> frags).
Proof.
  induction frags as [|x frags IH]; [done|].
  rewrite fmap_cons, filter_cons, <- IH. simpl.
  by destruct (strip x).
Qed.

Lemma comma_list_spec text :
  comma_list text = filter (λ x, x ≠ []) (strip <$> split comma text).
Proof. apply strip_nonempty_spec. Qed.

(* ===================================================================== *)
(** ** Health passport and medication list *)
(* ===================================================================== *)


(** C6. [save_medications] turns its text into a list by the rule of the
    passport fields (cut at the commas, strip, drop what is empty), makes
    it the medication list of the active profile in place of the former
    one and leaves the other profiles' lists alone. The text
    " aspirin ,  , ibuprofen" gives exactly aspirin, ibuprofen. *)
Theorem save_med_list_replaces :
  (∀ meds_str ss,
      meds (save_med_list meds_str ss) !! active_profile ss = Some (comma_list meds_str)
      ∧ passport (update_passport meds_str meds_str meds_str ss) !! active_profile ss
        = Some (Passport.mk (comma_list meds_str) (comma_list meds_str) (comma_list meds_str))
      ∧ comma_list meds_str = filter (λ x, x ≠ []) (strip <$> split comma meds_str))
  ∧ (∀ meds_str ss name,
      name ≠ active_profile ss →
      meds (save_med_list meds_str ss) !! name = meds ss !! name)
  ∧ (∀ ss,
      meds (save_med_list (py " aspirin ,  , ibuprofen") ss) !! active_profile ss
      = Some [py "aspirin"; py "ibuprofen"]).
Proof.
  split_and!.
  - intros meds_str ss. unfold save_med_list, update_passport. simpl.
    rewrite !lookup_insert_eq. split_and!; [done | done | apply comma_list_spec].
  - intros meds_str ss name Hne. unfold save_med_list. simpl. by apply lookup_insert_ne.
  - intros ss. unfold save_med_list. simpl. by rewrite lookup_insert_eq.
Qed.

(* ===================================================================== *)
(** ** Profile registry *)
(* ===================================================================== *)

Lemma add_profile_known new_name ss :
  new_name ∈ dom (profiles ss) → add_profile new_name ss = ss.
Proof.
  intros Hin. unfold add_profile.
  rewrite (bool_decide_eq_false_2 (new_name ∉ dom (profiles ss))) by (intros Hn; by apply Hn).
  by rewrite andb_false_r.
Qed.

Lemma add_profile_new new_name ss :
  new_name ≠ [] → new_name ∉ dom (profiles ss) →
  add_profile new_name ss
  = set_passport (<[new_name := Passport.mk [] [] []]> (passport ss))
      (set_records (<[new_name := []]> (records ss))
         (set_meds (<[new_name := []]> (meds ss))
            (set_vitals (<[new_name := mkDF VITALS_COLUMNS []]> (vitals ss))
               (set_profiles (<[new_name := Profile.mk None None]> (profiles ss)) ss)))).
Proof.
  intros Hne Hnew. unfold add_profile.
  rewrite bool_decide_eq_true_2 by done. by destruct new_name.
Qed.

(** C5. [add_profile] with the empty name or with the name of a profile
    changes nothing and raises nothing. With any other name it adds that
    one profile: the profile names are the former ones and the new name,
    one more in number; the new profile has an empty vitals log, an empty
    medication list, an empty record list and a passport of three empty
    lists; whatever belongs to another profile is as before. Adding a name
    twice gives the state of adding it once, and adding the name of a
    profile that has data leaves the data in place. *)
Theorem add_profile_once :
  (∀ ss, add_profile [] ss = ss)
  ∧ (∀ new_name ss, new_name ∈ dom (profiles ss) → add_profile new_name ss = ss)
  ∧ (∀ new_name ss,
      new_name ≠ [] → new_name ∉ dom (profiles ss) →
      let ss' := add_profile new_name ss in
      dom (profiles ss') = {[new_name]} ∪ dom (profiles ss)
      ∧ size (profiles ss') = S (size (profiles ss))
      ∧ profiles ss' !! new_name = Some (Profile.mk None None)
      ∧ vitals ss' !! new_name = Some (mkDF VITALS_COLUMNS [])
      ∧ meds ss' !! new_name = Some []
      ∧ records ss' !! new_name = Some []
      ∧ passport ss' !! new_name = Some (Passport.mk [] [] [])
      ∧ active_profile ss' = active_profile ss
      ∧ ∀ name, name ≠ new_name →
          profiles ss' !! name = profiles ss !! name
          ∧ vitals ss' !! name = vitals ss !! name
          ∧ meds ss' !! name = meds ss !! name
          ∧ records ss' !! name = records ss !! name
          ∧ passport ss' !! name = passport ss !! name)
  ∧ (∀ new_name ss,
      let ss' := add_profile new_name (add_profile new_name ss) in
      ss' = add_profile new_name ss
      ∧ (new_name ≠ [] → new_name ∈ dom (profiles ss')))
  ∧ (let ss := save_med_list (py "aspirin") initial in
     add_profile (py "Me") ss = ss
     ∧ size (profiles (add_profile (py "Me") ss)) = 1%nat
     ∧ meds (add_profile (py "Me") ss) !! py "Me" = Some [py "aspirin"]).
Proof.
  split_and!.
  - done.
  - apply add_profile_known.
  - intros new_name ss Hne Hnew ss'. subst ss'. rewrite add_profile_new by done. simpl.
    rewrite !lookup_insert_eq. split_and!; try done.
    + apply dom_insert_L.
    + apply map_size_insert_None. by apply not_elem_of_dom.
    + intros name Hname. by rewrite !lookup_insert_ne.
  - intros new_name ss ss'. subst ss'.
    destruct (decide (new_name = [])) as [->|Hne]; [done|].
    destruct (decide (new_name ∈ dom (profiles ss))) as [Hin|Hnew].
    + rewrite !(add_profile_known new_name ss) by done. done.
    + assert (new_name ∈ dom (profiles (add_profile new_name ss))) as Hin.
      { rewrite add_profile_new by done. simpl. rewrite dom_insert_L.
        by apply elem_of_union_l, elem_of_singleton. }
      rewrite (add_profile_known new_name (add_profile new_name ss)) by done. done.
  - assert (py "Me" ∈ dom (profiles (save_med_list (py "aspirin") initial))) as Hin.
    { apply elem_of_dom. by eexists. }
    simpl. rewrite add_profile_known by done. split_and!; [done | | done].
    apply map_size_singleton.
Qed.

(** C9. The passport export is computed from the state and returns no
    state: it is the document with the keys profile, immunizations,
    allergies and conditions of the active profile, it depends on nothing
    but the active profile's name and passport, and a run that only
    displays the page (no button clicked) leaves the session as the
    profile selection made it. For a profile just added and selected, such
    as "Sam" on a new session, the three lists of the document are empty. *)
Theorem passport_payload_pure :
  (∀ ss p,
      passport ss !! active_profile ss = Some p →
      passport_payload ss = Ok (passport_document (active_profile ss) p))
  ∧ (∀ ss1 ss2,
      active_profile ss1 = active_profile ss2 →
      passport ss1 !! active_profile ss1 = passport ss2 !! active_profile ss2 →
      passport_payload ss1 = passport_payload ss2)
  ∧ (∀ w ss ss',
      consumer_page w None ss = Ok ss' → ss' = set_active_profile (w_active w) ss)
  ∧ (∀ name ss,
      name ≠ [] → name ∉ dom (profiles ss) →
      passport_payload (set_active_profile name (add_profile name ss))
      = Ok (passport_document name (Passport.mk [] [] [])))
  ∧ (select_active (py "Sam") (add_profile (py "Sam") initial) ≫= passport_payload
     = Ok [ (py "profile", JStr (py "Sam"));
            (py "immunizations", JList []);
            (py "allergies", JList []);
            (py "conditions", JList []) ]).
Proof.
  split_and!.
  - intros ss p Hp. unfold passport_payload, getitem. by rewrite Hp.
  - intros ss1 ss2 Ha Hp. unfold passport_payload, getitem. by rewrite Hp, Ha.
  - intros w ss ss' H%consumer_page_Ok. simpl in H. by injection H as <-.
  - intros name ss Hne Hnew. rewrite add_profile_new by done.
    unfold passport_payload, getitem. simpl. by rewrite lookup_insert_eq.
  - reflexivity.
Qed.

(* ===================================================================== *)
(** ** Session start *)
(* ===================================================================== *)

Lemma page_coherent i ss :
  coherent ss → from_ui ss i = true → ∃ ss', page i ss = Ok ss' ∧ coherent ss'.
Proof.
  intros Hc Hui.
  destruct i as [w submitted now | w b | w b now]; simpl.
  - eexists. split; [done|]. apply (step_coherent ss); [done|].
    apply (step_run _ _ (HomePage w submitted now)); [done|].
    unfold run. by rewrite init_state_stored.
  - apply consumer_page_coherent; [done|]. simpl in Hui.
    repeat (apply andb_prop in Hui as [Hui _]). by apply bool_decide_eq_true in Hui.
  - eexists. split; [done|]. apply (step_coherent ss); [done|].
    apply (step_run _ _ (HospitalPage w b now)); [done|].
    unfold run. by rewrite init_state_stored.
Qed.

(** C10. A session starts, before any [add_profile], with the single
    profile "Me", which is the active one; its vitals log, medication list
    and record list are empty and its passport is three empty lists. The
    initial state is coherent (the sub-collections exist for the profiles
    and for nothing else), every interaction a user can start from it
    completes without error in a coherent state, and the initialisation of
    later runs changes nothing that is stored. *)
Theorem initial_state_has_me :
  dom (profiles initial) = {[ py "Me" ]}
  ∧ size (profiles initial) = 1%nat
  ∧ active_profile initial = py "Me"
  ∧ vitals initial !! py "Me" = Some (mkDF VITALS_COLUMNS [])
  ∧ meds initial !! py "Me" = Some []
  ∧ records initial !! py "Me" = Some []
  ∧ passport initial !! py "Me" = Some (Passport.mk [] [] [])
  ∧ coherent initial
  ∧ (∀ i, from_ui initial i = true →
          ∃ ss', run i fresh_session = Ok ss' ∧ coherent ss')
  ∧ (∀ ss, _init_state (stored ss) = ss).
Proof.
  split_and!;
    [ apply dom_singleton_L | apply map_size_singleton | done | done | done | done
    | done | apply coherent_initial | | apply init_state_stored ].
  intros i Hui. apply page_coherent; [apply coherent_initial | done].
Qed.

(* ===================================================================== *)
(** ** Tail of the vitals log *)
(* ===================================================================== *)

Lemma tail_rows {R} (n : nat) (df : DataFrame R) :
  rows (tail (Z.of_nat n) df) = drop (length (rows df) - n) (rows df).
Proof.
  unfold tail. simpl. destruct n as [|n].
  - simpl. rewrite Nat.sub_0_r. by rewrite drop_all.
  - replace (Z.of_nat (S n) =? 0) with false by (symmetry; apply Z.eqb_neq; lia).
    replace (0 <? Z.of_nat (S n)) with true by (symmetry; apply Z.ltb_lt; lia).
    by rewrite Nat2Z.id.
Qed.

Lemma vitals_eta e :
  Vitals.mk (Vitals.date e) (Vitals.time e) (Vitals.systolic e) (Vitals.diastolic e)
    (Vitals.hr e) (Vitals.glucose e) = e.
Proof. by destruct e. Qed.

Lemma add_entry_step date time sys dia hr glu ss :
  active_profile ss ∈ dom (vitals ss) →
  ∃ ss', add_entry date time sys dia hr glu ss = Ok ss'
         ∧ active_profile ss' = active_profile ss
         ∧ vitals_log (active_profile ss) ss'
           = vitals_log (active_profile ss) ss ++ [Vitals.mk date time sys dia hr glu]
         ∧ active_profile ss ∈ dom (vitals ss').
Proof.
  intros [df Hdf]%elem_of_dom.
  eexists. split; [apply add_entry_Ok; eauto|].
  unfold vitals_log. simpl. rewrite lookup_insert_eq, Hdf. split_and!; try done.
  rewrite dom_insert_L. by apply elem_of_union_l, elem_of_singleton.
Qed.

Lemma add_entries_log es ss :
  active_profile ss ∈ dom (vitals ss) →
  ∃ ss', add_entries es ss = Ok ss'
         ∧ active_profile ss' = active_profile ss
         ∧ vitals_log (active_profile ss) ss' = vitals_log (active_profile ss) ss ++ es
         ∧ active_profile ss ∈ dom (vitals ss').
Proof.
  revert ss. induction es as [|e es IH]; intros ss Hin; simpl.
  - exists ss. by rewrite app_nil_r.
  - destruct (add_entry_step (Vitals.date e) (Vitals.time e) (Vitals.systolic e)
                (Vitals.diastolic e) (Vitals.hr e) (Vitals.glucose e) ss Hin)
      as (ss1 & -> & Ha1 & Hl1 & Hd1).
    rewrite vitals_eta in Hl1. simpl.
    destruct (IH ss1) as (ss' & Hrun & Ha & Hl & Hd); [by rewrite Ha1|].
    rewrite Ha1 in Ha, Hl, Hd.
    exists ss'. split_and!; try done.
    by rewrite Hl, Hl1, <- app_assoc.
Qed.

(** The scenario evaluated: the log of "Sam" holds the one entry and
    [tail(1)] returns exactly it. *)
Example sam_tail_1 :
  ∃ ss' df,
    add_entries [scenario_entry] sam_session = Ok ss'
    ∧ vitals ss' !! py "Sam" = Some df
    ∧ rows (tail 1 df) = [scenario_entry]
    ∧ vitals_table ss' = Ok (Some (tail 6 df))
    ∧ rows (tail 6 df) = [scenario_entry].
Proof. do 2 eexists. split_and!; vm_compute; reflexivity. Qed.

(* ===================================================================== *)
(** ** Roster order *)
(* ===================================================================== *)

Lemma str_compare_refl a : str_compare a a = Eq.
Proof. induction a as [|x a IH]; simpl; [done|]. by rewrite N.compare_refl. Qed.

Lemma str_compare_eq a b : str_compare a b = Eq → a = b.
Proof.
  revert b. induction a as [|x a IH]; intros [|y b]; simpl; try done.
  destruct (N.compare_spec x y) as [->|?|?]; try done.
  intros H. f_equal. by apply IH.
Qed.

Lemma str_compare_antisym a b : str_compare b a = CompOpp (str_compare a b).
Proof.
  revert b. induction a as [|x a IH]; intros [|y b]; simpl; try done.
  rewrite (N.compare_antisym x y).
  destruct (x ?= y)%N; simpl; done.
Qed.

Lemma str_compare_lt_trans a b c :
  str_compare a b = Lt → str_compare b c = Lt → str_compare a c = Lt.
Proof.
  revert b c. induction a as [|x a IH]; intros [|y b] [|z c]; simpl; try done.
  destruct (N.compare_spec x y) as [->|Hxy|Hxy]; try done.
  - destruct (N.compare_spec y z) as [->|Hyz|Hyz]; try done. apply IH.
  - intros _.
    destruct (N.compare_spec y z) as [->|Hyz|Hyz]; try done; intros _.
    + by rewrite (proj2 (N.compare_lt_iff x z)) by done.
    + by rewrite (proj2 (N.compare_lt_iff x z)) by lia.
Qed.

Lemma str_le_trans a b c : str_le a b → str_le b c → str_le a c.
Proof.
  unfold str_le. intros Hab Hbc.
  destruct (str_compare a b) eqn:E1; [| |done].
  - by apply str_compare_eq in E1 as ->.
  - destruct (str_compare b c) eqn:E2; [| |done].
    + apply str_compare_eq in E2 as <-. by rewrite E1.
    + by rewrite (str_compare_lt_trans a b c).
Qed.

Lemma roster_le_total a b : roster_le a b = false → roster_le b a = true.
Proof.
  unfold roster_le.
  rewrite (str_compare_antisym (Roster.date a) (Roster.date b)).
  rewrite (str_compare_antisym (Roster.shift a) (Roster.shift b)).
  destruct (str_compare (Roster.date a) (Roster.date b)); simpl; try done.
  by destruct (str_compare (Roster.shift a) (Roster.shift b)).
Qed.

Lemma roster_le_trans a b c :
  roster_le a b = true → roster_le b c = true → roster_le a c = true.
Proof.
  unfold roster_le.
  destruct (str_compare (Roster.date a) (Roster.date b)) eqn:E1; [| |done];
    destruct (str_compare (Roster.date b) (Roster.date c)) eqn:E2; try done.
  - apply str_compare_eq in E1. apply str_compare_eq in E2. rewrite E1, E2.
    rewrite str_compare_refl. intros Hab Hbc.
    assert (str_le (Roster.shift a) (Roster.shift c)) as Hac.
    { apply (str_le_trans _ (Roster.shift b)); unfold str_le.
      - by destruct (str_compare (Roster.shift a) (Roster.shift b)).
      - by destruct (str_compare (Roster.shift b) (Roster.shift c)). }
    unfold str_le in Hac. by destruct (str_compare (Roster.shift a) (Roster.shift c)).
  - apply str_compare_eq in E1. rewrite E1, E2. done.
  - apply str_compare_eq in E2. rewrite <- E2, E1. done.
  - by rewrite (str_compare_lt_trans _ _ _ E1 E2).
Qed.

Section InsertionSort.
Context {R : Type} (le : R → R → bool).
Hypothesis le_total : ∀ a b, le a b = false → le b a = true.

Let leP (a b : R) : Prop := le a b = true.

Lemma insert_sorted_perm x l : insert_sorted le x l ≡ₚ x :: l.
Proof.
  induction l as [|y l IH]; simpl; [done|].
  destruct (le x y); [done|]. rewrite IH. apply Permutation_swap.
Qed.

Lemma insert_sorted_HdRel y x l :
  leP y x → HdRel leP y l → HdRel leP y (insert_sorted le x l).
Proof.
  intros Hyx Hl. destruct l as [|z l]; simpl.
  - by constructor.
  - destruct (le x z); constructor; [done|]. by inversion Hl.
Qed.

Lemma insert_sorted_Sorted x l : Sorted leP l → Sorted leP (insert_sorted le x l).
Proof.
  induction 1 as [|y l Hl IH Hy]; simpl.
  - by repeat constructor.
  - destruct (le x y) eqn:Hxy.
    + constructor; [by constructor|]. by constructor.
    + constructor; [done|]. apply insert_sorted_HdRel; [|done].
      by apply le_total.
Qed.

Lemma sort_values_rows (df : DataFrame R) :
  Sorted leP (rows (sort_values le df)) ∧ rows (sort_values le df) ≡ₚ rows df.
Proof.
  unfold sort_values. simpl. induction (rows df) as [|x l [IHs IHp]]; simpl.
  - split; [constructor | done].
  - split; [by apply insert_sorted_Sorted|].
    by rewrite insert_sorted_perm, IHp.
Qed.
End InsertionSort.

(** C7. The roster table lists the roster entries (all of them, none
    twice) in ascending order of the key (date, shift), both components
    compared as strings: an earlier date string first, and for two entries
    of one date the one whose shift label is the smaller string first.
    As strings "Evening" < "Morning" < "Night", so three entries of one
    date added as Morning, Evening, Night (the order of the shift select
    box) are listed as Evening, Morning, Night. *)
Theorem roster_table_string_order :
  (∀ ss,
      StronglySorted (λ a b, roster_le a b = true) (rows (roster_table ss))
      ∧ rows (roster_table ss) ≡ₚ rows (roster ss))
  ∧ (∀ a b,
      roster_le a b = true
      ↔ str_compare (Roster.date a) (Roster.date b) = Lt
        ∨ Roster.date a = Roster.date b
          ∧ str_compare (Roster.shift a) (Roster.shift b) ≠ Gt)
  ∧ str_compare (py "Evening") (py "Morning") = Lt
  ∧ str_compare (py "Morning") (py "Night") = Lt
  ∧ SHIFT_OPTIONS = [py "Morning"; py "Evening"; py "Night"]
  ∧ (∀ rdate doc1 doc2 doc3 ss,
      rows (roster ss) = [] →
      map Roster.shift
        (rows (roster_table
                 (add_to_roster rdate (py "Night") doc3
                    (add_to_roster rdate (py "Evening") doc2
                       (add_to_roster rdate (py "Morning") doc1 ss)))))
      = [py "Evening"; py "Morning"; py "Night"]).
Proof.
  split_and!; try done.
  - intros ss. destruct (sort_values_rows roster_le roster_le_total (roster ss)) as [Hs Hp].
    split; [|done].
    apply Sorted_StronglySorted; [|done].
    intros a b c. apply roster_le_trans.
  - intros a b. unfold roster_le.
    destruct (str_compare (Roster.date a) (Roster.date b)) eqn:E.
    + apply str_compare_eq in E.
      destruct (str_compare (Roster.shift a) (Roster.shift b)).
      * split; [intros _; by right | done].
      * split; [intros _; by right | done].
      * split; [done | intros [?|[_ ?]]; done].
    + split; [by left | done].
    + split; [done|]. intros [?|[Heq _]]; [done|].
      rewrite Heq, str_compare_refl in E. done.
  - intros rdate doc1 doc2 doc3 ss Hempty.
    unfold roster_table, add_to_roster, sort_values.
    generalize (isoformat rdate). intros d. simpl. rewrite Hempty. simpl.
    unfold roster_le. simpl. by repeat (rewrite !str_compare_refl; simpl).
Qed.


(* ===================================================================== *)
(** ** No run of a session raises *)
(* ===================================================================== *)

(** X1. In every state a session reaches, whatever page is shown and
    whatever button is clicked, the run the user interface starts
    completes: no [KeyError] for a missing sub-collection of the active
    profile, no [ValueError] from the profile select box. The state it
    leaves is coherent again. *)
Theorem reachable_run_completes ss i
    (Hreach : reachable ss) (Hui : from_ui ss i = true) :
  ∃ ss', run i (stored ss) = Ok ss' ∧ coherent ss' ∧ reachable ss'.
Proof.
  destruct (page_coherent i ss (reachable_coherent _ Hreach) Hui) as (ss' & Hpage & Hc).
  assert (run i (stored ss) = Ok ss') as Hrun.
  { unfold run. by rewrite init_state_stored. }
  exists ss'. split_and!; [done | done |].
  apply (reachable_step ss); [done|]. by apply (step_run _ _ i).
Qed.

(** X1 on a new session, "Add Entry" clicked with the default values. *)
Lemma reachable_run_completes_witness :
  ∃ ss', run (ConsumerPage sam_typed (Some BtnAddEntry)) (stored initial) = Ok ss'
         ∧ coherent ss' ∧ reachable ss'.
Proof.
  apply (reachable_run_completes initial (ConsumerPage sam_typed (Some BtnAddEntry))).
  - apply reachable_initial.
  - vm_compute. reflexivity.
Defined.

(* ===================================================================== *)
(** ** Text to list and back *)
(* ===================================================================== *)

Lemma split_no_sep sep s : sep ∉ s → split sep s = [s].
Proof.
  induction s as [|c s IH]; simpl; [done|].
  rewrite not_elem_of_cons. intros [Hne Hs].
  destruct (N.eqb_spec c sep) as [->|_]; [done|]. by rewrite IH.
Qed.

Lemma split_app sep a b : sep ∉ a → split sep (a ++ sep :: b) = a :: split sep b.
Proof.
  induction a as [|c a IH]; simpl.
  - intros _. by rewrite N.eqb_refl.
  - rewrite not_elem_of_cons. intros [Hne Ha].
    destruct (N.eqb_spec c sep) as [->|_]; [done|]. by rewrite IH.
Qed.

Lemma lstrip_id s : (∀ c, head s = Some c → is_space c = false) → lstrip s = s.
Proof. destruct s as [|c s]; simpl; [done|]. intros H. by rewrite (H c). Qed.

Lemma head_rev_last {A} (l : list A) : head (rev l) = last l.
Proof. rewrite <- (rev_involutive l) at 2. symmetry. apply last_rev_head. Qed.

Lemma rstrip_id s : (∀ c, last s = Some c → is_space c = false) → rstrip s = s.
Proof.
  intros H. unfold rstrip. rewrite lstrip_id; [apply rev_involutive|].
  intros c. rewrite head_rev_last. apply H.
Qed.

Lemma strip_strip s : strip (strip s) = strip s.
Proof.
  destruct (strip_spec s) as (pre & post & _ & _ & _ & Hhead & Hlast).
  unfold strip at 1. by rewrite lstrip_id, rstrip_id.
Qed.

Lemma strip_keeps_out c s : c ∉ s → c ∉ strip s.
Proof.
  destruct (strip_spec s) as (pre & post & Hs & _). intros Hc Hin. apply Hc.
  rewrite Hs, !elem_of_app. auto.
Qed.

Lemma strip_nonempty_clean frags :
  Forall (λ frag, comma ∉ frag) frags → Forall clean (strip_nonempty frags).
Proof.
  induction 1 as [|x frags Hx _ IH]; simpl; [done|].
  destruct (strip x) as [|c t] eqn:E; simpl; [done|].
  apply Forall_cons. split; [|done]. rewrite <- E. split_and!.
  - by rewrite E.
  - by apply strip_keeps_out.
  - apply strip_strip.
Qed.

Lemma comma_list_clean text : Forall clean (comma_list text).
Proof. apply strip_nonempty_clean. by destruct (split_join comma text). Qed.

Lemma comma_list_space s : comma_list (32%N :: s) = comma_list s.
Proof.
  unfold comma_list. simpl.
  pose proof (split_nonempty comma s) as Hs.
  destruct (split comma s) as [|frag frags]; [done|]. done.
Qed.

Lemma comma_list_join l : Forall clean l → comma_list (join COMMA_SPACE l) = l.
Proof.
  induction 1 as [|x l (Hne & Hcomma & Hstrip) Hl IH]; [done|].
  destruct l as [|y l].
  - simpl. unfold comma_list. rewrite split_no_sep by done. simpl.
    rewrite Hstrip. by destruct x.
  - change (join COMMA_SPACE (x :: y :: l))
      with (x ++ comma :: 32%N :: join COMMA_SPACE (y :: l)).
    unfold comma_list. rewrite split_app by done.
    change (strip_nonempty (x :: ?r)) with
      (if truthy (strip x) then strip x :: strip_nonempty r else strip_nonempty r).
    rewrite Hstrip. destruct x as [|c x]; [done|]. simpl truthy. cbv iota.
    f_equal. change (strip_nonempty (split comma ?t)) with (comma_list t).
    by rewrite comma_list_space.
Qed.








(* ===================================================================== *)
(** ** Lists of a session are clean *)
(* ===================================================================== *)

Lemma clean_lists_initial : clean_lists initial.
Proof.
  split; intros name x; unfold initial, _init_state; simpl;
    intros [_ <-]%lookup_singleton_Some; by repeat constructor.
Qed.

Lemma clean_lists_passport k a b c ss :
  clean_lists ss → Forall clean a → Forall clean b → Forall clean c →
  clean_lists (set_passport (<[k := Passport.mk a b c]> (passport ss)) ss).
Proof.
  intros [Hp Hm] Ha Hb Hc. split; [|done]. simpl. intros name p.
  rewrite lookup_insert_Some. intros [[_ <-]|[_ Hl]]; [done | by eapply Hp].
Qed.

Lemma clean_lists_meds k l ss :
  clean_lists ss → Forall clean l →
  clean_lists (set_meds (<[k := l]> (meds ss)) ss).
Proof.
  intros [Hp Hm] Hl. split; [done|]. simpl. intros name m.
  rewrite lookup_insert_Some. intros [[_ <-]|[_ Hk]]; [done | by eapply Hm].
Qed.

Lemma clean_lists_same ss ss' :
  passport ss' = passport ss → meds ss' = meds ss → clean_lists ss → clean_lists ss'.
Proof. unfold clean_lists. by intros -> ->. Qed.

Lemma add_profile_clean new_name ss : clean_lists ss → clean_lists (add_profile new_name ss).
Proof.
  intros [Hp Hm]. unfold add_profile. destruct (truthy new_name && _); [|done].
  split; simpl; intros name x; rewrite lookup_insert_Some.
  - intros [[_ <-]|[_ Hl]]; [done | by eapply Hp].
  - intros [[_ <-]|[_ Hl]]; [done | by eapply Hm].
Qed.

Lemma page_clean i ss ss' : clean_lists ss → page i ss = Ok ss' → clean_lists ss'.
Proof.
  intros Hc Hpage. destruct i as [w submitted now | w b | w b now]; simpl in Hpage.
  - injection Hpage as <-.
    destruct (home_page_frame w submitted now ss) as (_ & _ & _ & Hm & _ & Hp & _).
    by apply (clean_lists_same ss).
  - apply consumer_page_Ok in Hpage.
    assert (clean_lists (set_active_profile (w_active w) ss)) as Hc1
      by by apply (clean_lists_same ss).
    destruct b as [[]|]; simpl in Hpage; try (injection Hpage as <-); try done.
    + by apply add_profile_clean.
    + apply clean_lists_passport; try done; apply comma_list_clean.
    + apply clean_lists_meds; [done | apply comma_list_clean].
    + apply add_entry_Ok in Hpage as (df & _ & ->). by apply (clean_lists_same ss).
  - injection Hpage as <-.
    destruct (hospital_page_frame w b now ss) as (_ & _ & _ & Hm & _ & Hp).
    by apply (clean_lists_same ss).
Qed.

Lemma reachable_clean ss : reachable ss → clean_lists ss.
Proof.
  induction 1 as [|ss ss' _ IH [i _ Hrun]]; [apply clean_lists_initial|].
  unfold run in Hrun. rewrite init_state_stored in Hrun. by eapply page_clean.
Qed.

Lemma set_active_profile_same ss : set_active_profile (active_profile ss) ss = ss.
Proof. by destruct ss. Qed.

Lemma update_passport_shown ss imms alls cond :
  clean_lists ss → passport_fields ss = Ok (imms, alls, cond) →
  update_passport imms alls cond ss = ss.
Proof.
  intros [Hp _]. unfold passport_fields.
  intros (p & Hl%getitem_Ok & [= <- <- <-])%bind_Ok.
  destruct (Hp _ _ Hl) as (Hi & Ha & Hc).
  unfold update_passport. rewrite !comma_list_join by done.
  rewrite insert_id; [by destruct ss | by destruct p].
Qed.

Lemma save_med_list_shown ss meds_str :
  clean_lists ss → meds_field ss = Ok meds_str → save_med_list meds_str ss = ss.
Proof.
  intros [_ Hm]. unfold meds_field.
  intros (m & Hl%getitem_Ok & [= <-])%bind_Ok.
  unfold save_med_list. rewrite comma_list_join by by eapply Hm.
  rewrite insert_id; [by destruct ss | done].
Qed.

(** X3. In a state a session reaches, clicking "Update Passport" or "Save
    Med List" with the fields left as the page displays them (the stored
    lists joined with ", ") changes nothing at all: the run completes and
    the session is the one it started from. *)
Theorem unedited_fields_resubmit ss w
    (Hreach : reachable ss) (Hw : untouched ss w) :
  consumer_page w (Some BtnUpdatePassport) ss = Ok ss
  ∧ consumer_page w (Some BtnSaveMedList) ss = Ok ss.
Proof.
  destruct Hw as (Ha & Hp & Hm).
  pose proof (reachable_coherent _ Hreach) as Hc.
  pose proof (reachable_clean _ Hreach) as Hcl.
  assert (w_active w ∈ dom (profiles ss)) as Hin.
  { rewrite Ha. by destruct Hc as (_ & _ & _ & _ & ?). }
  split.
  - destruct (consumer_page_coherent w (Some BtnUpdatePassport) ss Hc Hin)
      as (ss' & Hrun & _).
    rewrite Hrun. apply consumer_page_Ok in Hrun. simpl in Hrun.
    rewrite Ha, set_active_profile_same in Hrun.
    rewrite update_passport_shown in Hrun by done. done.
  - destruct (consumer_page_coherent w (Some BtnSaveMedList) ss Hc Hin)
      as (ss' & Hrun & _).
    rewrite Hrun. apply consumer_page_Ok in Hrun. simpl in Hrun.
    rewrite Ha, set_active_profile_same in Hrun.
    rewrite save_med_list_shown in Hrun by done. done.
Qed.

(** X3 after the text " A ,B,, " was saved as immunizations: the field
    then shows "A, B", and saving that again leaves the session alone. *)
Lemma unedited_fields_resubmit_witness :
  consumer_page ab_shown (Some BtnUpdatePassport) ab_session = Ok ab_session
  ∧ consumer_page ab_shown (Some BtnSaveMedList) ab_session = Ok ab_session.
Proof.
  apply (unedited_fields_resubmit ab_session ab_shown).
  - apply (reachable_step initial); [apply reachable_initial|].
    apply (step_run _ _ (ConsumerPage ab_typed (Some BtnUpdatePassport)));
      vm_compute; reflexivity.
  - split_and!; vm_compute; reflexivity.
Defined.

(* ===================================================================== *)
(** ** Which stores a run writes *)
(* ===================================================================== *)

(** X4. The three pages keep to their own stores. A run of the home page
    can only add to the pilot requests; a run of the hospital page leaves
    the profiles, their four sub-collections, the active profile, the
    interpreter text and the pilot requests as they were; a run of the
    consumer page leaves the patient registry, the roster, the chat and
    the pilot requests as they were. *)
Theorem pages_keep_to_their_stores :
  (∀ w submitted now ss,
      let ss' := home_page w submitted now ss in
      set_pilot_requests (pilot_requests ss) ss' = ss)
  ∧ (∀ w b now ss,
      let ss' := hospital_page w b now ss in
      active_profile ss' = active_profile ss ∧ profiles ss' = profiles ss
      ∧ vitals ss' = vitals ss ∧ meds ss' = meds ss ∧ records ss' = records ss
      ∧ passport ss' = passport ss ∧ lab_text ss' = lab_text ss
      ∧ pilot_requests ss' = pilot_requests ss)
  ∧ (∀ w b ss ss',
      consumer_page w b ss = Ok ss' →
      patients ss' = patients ss ∧ roster ss' = roster ss ∧ chat ss' = chat ss
      ∧ pilot_requests ss' = pilot_requests ss).
Proof.
  split_and!.
  - intros w submitted now ss. unfold home_page, request_pilot.
    destruct submitted; by destruct ss.
  - intros w b now ss. unfold hospital_page, send.
    destruct b as [[]|]; simpl; try done. by destruct (truthy _).
  - intros w b ss ss' H%consumer_page_Ok.
    destruct (consumer_handler_frame _ _ _ _ H) as (Hp & Hr & Hc & Hpr & _).
    by rewrite Hp, Hr, Hc, Hpr.
Qed.

Lemma add_profile_other new_name ss name :
  name ∈ dom (profiles ss) →
  let ss' := add_profile new_name ss in
  profiles ss' !! name = profiles ss !! name ∧ vitals ss' !! name = vitals ss !! name
  ∧ meds ss' !! name = meds ss !! name ∧ records ss' !! name = records ss !! name
  ∧ passport ss' !! name = passport ss !! name.
Proof.
  intros Hin. unfold add_profile. destruct (truthy new_name); simpl; [|done].
  case_bool_decide as Hnew; simpl; [|done].
  assert (new_name ≠ name) as Hne by (intros ->; done).
  by rewrite !lookup_insert_ne.
Qed.

(** X5. A click on the consumer page acts on the selected profile only.
    After a run that completes, the selected profile is the active one,
    and every other profile that existed has its attributes, vitals frame,
    medication list, record list and passport exactly as before. *)
Theorem consumer_click_spares_other_profiles w b ss ss' name
    (Hrun : consumer_page w b ss = Ok ss')
    (Hname : name ∈ dom (profiles ss)) (Hother : name ≠ w_active w) :
  active_profile ss' = w_active w
  ∧ profiles ss' !! name = profiles ss !! name
  ∧ vitals ss' !! name = vitals ss !! name
  ∧ meds ss' !! name = meds ss !! name
  ∧ records ss' !! name = records ss !! name
  ∧ passport ss' !! name = passport ss !! name.
Proof.
  apply consumer_page_Ok in Hrun.
  destruct b as [[]|]; simpl in Hrun; try (injection Hrun as <-); simpl; try done.
  - destruct (add_profile_other (w_new_name w) (set_active_profile (w_active w) ss) name Hname)
      as (? & ? & ? & ? & ?).
    split_and!; try done.
    unfold add_profile. by destruct (truthy _ && _).
  - by rewrite lookup_insert_ne.
  - by rewrite lookup_insert_ne.
  - apply add_entry_Ok in Hrun as (df & _ & ->). simpl. by rewrite lookup_insert_ne.
Qed.

(** X5 on a session with the profiles "Me" and "Sam", "Sam" selected and
    an entry added: the data of "Me" is untouched. *)
Lemma consumer_click_spares_other_profiles_witness :
  ∃ ss',
    consumer_page
      (mkConsumerWidgets (py "Sam") [] [] [] [] [] jan_1_2024 eight_am 120 80 72 95 [])
      (Some BtnAddEntry) (add_profile (py "Sam") initial) = Ok ss'
    ∧ active_profile ss' = py "Sam"
    ∧ profiles ss' !! py "Me" = profiles (add_profile (py "Sam") initial) !! py "Me"
    ∧ vitals ss' !! py "Me" = vitals (add_profile (py "Sam") initial) !! py "Me"
    ∧ meds ss' !! py "Me" = meds (add_profile (py "Sam") initial) !! py "Me"
    ∧ records ss' !! py "Me" = records (add_profile (py "Sam") initial) !! py "Me"
    ∧ passport ss' !! py "Me" = passport (add_profile (py "Sam") initial) !! py "Me".
Proof.
  eexists. split; [vm_compute; reflexivity|].
  eapply (consumer_click_spares_other_profiles
            (mkConsumerWidgets (py "Sam") [] [] [] [] [] jan_1_2024 eight_am 120 80 72 95 [])
            (Some BtnAddEntry) (add_profile (py "Sam") initial) _ (py "Me")).
  - vm_compute. reflexivity.
  - apply elem_of_dom. eexists. vm_compute. reflexivity.
  - vm_compute. discriminate.
Defined.

(* ===================================================================== *)
(** ** Append-only logs: chat, pilot requests, roster *)
(* ===================================================================== *)

Lemma page_chat i ss ss' :
  page i ss = Ok ss' →
  chat ss' = chat ss ∨ ∃ m, chat ss' = chat ss ++ [m] ∧ demo_message m.
Proof.
  destruct i as [w submitted now | w b | w b now]; simpl.
  - intros [= <-]. left. unfold home_page. by destruct submitted.
  - intros H%consumer_page_Ok. left.
    by destruct (consumer_handler_frame _ _ _ _ H) as (_ & _ & -> & _).
  - intros [= <-]. unfold hospital_page, send.
    destruct b as [[]|]; simpl; try (by left).
    destruct (w_msg w) as [|c msg] eqn:E; simpl; [by left|].
    right. eexists. split; [done|]. by split.
Qed.

(** X6. The chat only grows. A run leaves it as it was or adds one message
    at its end, and "Send" with an empty message adds nothing. Every
    message a session holds has a non-empty text and the author
    "Dr. Demo", and the chat table is hidden exactly when there is no
    message. *)
Theorem chat_is_append_only :
  (∀ i ss ss',
      page i ss = Ok ss' →
      chat ss' = chat ss ∨ ∃ m, chat ss' = chat ss ++ [m] ∧ demo_message m)
  ∧ (∀ now ss, send [] now ss = ss)
  ∧ (∀ msg now ss,
      msg ≠ [] → chat (send msg now ss) = chat ss ++ [Chat.mk now (py "Dr. Demo") msg])
  ∧ (∀ ss, reachable ss → Forall demo_message (chat ss))
  ∧ (∀ ss, chat_table ss = None ↔ chat ss = []).
Proof.
  split_and!.
  - apply page_chat.
  - done.
  - intros msg now ss Hmsg. unfold send. by destruct msg.
  - induction 1 as [|ss ss' _ IH [i _ Hrun]]; [by apply Forall_nil|].
    unfold run in Hrun. rewrite init_state_stored in Hrun.
    destruct (page_chat _ _ _ Hrun) as [-> | (m & -> & Hm)]; [done|].
    apply Forall_app. split; [done | by apply Forall_singleton].
  - intros ss. unfold chat_table. by destruct (chat ss).
Qed.

Lemma page_pilot i ss ss' :
  page i ss = Ok ss' →
  pilot_requests ss' = pilot_requests ss
  ∨ ∃ r, pilot_requests ss' = pilot_requests ss ++ [r]
         ∧ (from_ui ss i = true → Pilot.use_case r ∈ USE_CASE_OPTIONS).
Proof.
  destruct i as [w submitted now | w b | w b now]; simpl.
  - intros [= <-]. unfold home_page, request_pilot.
    destruct submitted; [right | by left].
    eexists. split; [done|]. simpl. unfold selectbox. by intros ?%bool_decide_eq_true.
  - intros H%consumer_page_Ok. left.
    by destruct (consumer_handler_frame _ _ _ _ H) as (_ & _ & _ & -> & _).
  - intros [= <-]. left. unfold hospital_page, send.
    destruct b as [[]|]; simpl; try done. by destruct (truthy _).
Qed.

(** X7. The pilot requests only grow. A submission of the form always
    adds one request at the end, also when its fields are empty or repeat
    an earlier request; nothing else changes the list. The use case of
    every request a session holds is one of the four options of the form.
    The table under the form is hidden when there is no request and
    otherwise shows the last five of them, or all when there are fewer, in
    submission order. *)
Theorem pilot_requests_append_only :
  (∀ i ss ss',
      page i ss = Ok ss' →
      pilot_requests ss' = pilot_requests ss
      ∨ ∃ r, pilot_requests ss' = pilot_requests ss ++ [r]
             ∧ (from_ui ss i = true → Pilot.use_case r ∈ USE_CASE_OPTIONS))
  ∧ (∀ w now ss,
      pilot_requests (home_page w true now ss)
      = pilot_requests ss ++ [Pilot.mk (w_org w) (w_email w) (w_use_case w) (w_notes w) now])
  ∧ (∀ ss, reachable ss →
           Forall (λ r, Pilot.use_case r ∈ USE_CASE_OPTIONS) (pilot_requests ss))
  ∧ (∀ ss,
      match pilot_table ss with
      | None => pilot_requests ss = []
      | Some t =>
          pilot_requests ss ≠ []
          ∧ rows t = drop (length (pilot_requests ss) - 5) (pilot_requests ss)
          ∧ length (rows t) = (5 `min` length (pilot_requests ss))%nat
      end).
Proof.
  split_and!.
  - apply page_pilot.
  - done.
  - induction 1 as [|ss ss' _ IH [i Hui Hrun]]; [by apply Forall_nil|].
    unfold run in Hrun. rewrite init_state_stored in Hrun.
    destruct (page_pilot _ _ _ Hrun) as [-> | (r & -> & Hr)]; [done|].
    apply Forall_app. split; [done | by apply Forall_singleton, Hr].
  - intros ss. unfold pilot_table. destruct (pilot_requests ss) as [|r l] eqn:E; [done|].
    rewrite <- E. split_and!.
    + by rewrite E.
    + apply (tail_rows 5 (mkDF PILOT_COLUMNS (pilot_requests ss))).
    + change (tail 5 ?d) with (tail (Z.of_nat 5) d).
      rewrite tail_rows. cbn [rows]. rewrite length_drop. lia.
Qed.

Lemma page_roster i ss ss' :
  page i ss = Ok ss' →
  roster ss' = roster ss
  ∨ ∃ r, roster ss' = concat (roster ss) (mkDF ROSTER_COLUMNS [r])
         ∧ length (Roster.date r) = 10%nat
         ∧ (from_ui ss i = true → Roster.shift r ∈ SHIFT_OPTIONS).
Proof.
  destruct i as [w submitted now | w b | w b now]; simpl.
  - intros [= <-]. left. unfold home_page. by destruct submitted.
  - intros H%consumer_page_Ok. left.
    by destruct (consumer_handler_frame _ _ _ _ H) as (_ & -> & _).
  - intros [= <-]. unfold hospital_page, send.
    destruct b as [[]|]; simpl; try (by left); [|by destruct (truthy _); left].
    right. eexists. split; [done|]. simpl. split; [done|].
    unfold selectbox. intros [_ H%bool_decide_eq_true]%andb_prop. done.
Qed.

(** X8. The roster only grows and has no uniqueness rule. "Add to Roster"
    puts one row at the end, so adding the same assignment twice leaves
    two equal rows; nothing else changes the roster. In a session every
    row has one of the three shift labels and a date of ten characters,
    the frame keeps its three columns, and the table lists as many rows as
    the roster holds. *)
Theorem roster_is_append_only :
  (∀ i ss ss',
      page i ss = Ok ss' →
      rows (roster ss) `prefix_of` rows (roster ss')
      ∧ (length (rows (roster ss')) ≤ S (length (rows (roster ss))))%nat)
  ∧ (∀ rdate rshift rdoc ss,
      let r := Roster.mk (isoformat rdate) rshift rdoc in
      rows (roster (add_to_roster rdate rshift rdoc (add_to_roster rdate rshift rdoc ss)))
      = rows (roster ss) ++ [r; r])
  ∧ (∀ ss, reachable ss →
           Forall roster_entry_ok (rows (roster ss))
           ∧ columns (roster ss) = ROSTER_COLUMNS)
  ∧ (∀ ss, length (rows (roster_table ss)) = length (rows (roster ss))).
Proof.
  split_and!.
  - intros i ss ss' H. destruct (page_roster _ _ _ H) as [-> | (r & -> & _)].
    + split; [done | lia].
    + simpl. split; [by apply prefix_app_r|]. rewrite length_app. simpl. lia.
  - intros rdate rshift rdoc ss r. simpl. by rewrite <- app_assoc.
  - induction 1 as [|ss ss' _ [IHr IHc] [i Hui Hrun]]; [by split|].
    unfold run in Hrun. rewrite init_state_stored in Hrun.
    destruct (page_roster _ _ _ Hrun) as [-> | (r & -> & Hlen & Hr)]; [done|].
    simpl. split.
    + apply Forall_app. split; [done|]. apply Forall_singleton. split; [by apply Hr | done].
    + by rewrite IHc.
  - intros ss.
    destruct (sort_values_rows roster_le roster_le_total (roster ss)) as [_ Hp].
    unfold roster_table. by rewrite Hp.
Qed.

(* ===================================================================== *)
(** ** ISO dates compare like dates *)
(* ===================================================================== *)

Lemma str_compare_cons x y a b :
  str_compare (x :: a) (y :: b)
  = match (x ?= y)%N with Eq => str_compare a b | c => c end.
Proof. done. Qed.

Lemma digit_compare a b : (digit a ?= digit b)%N = (a mod 10 ?= b mod 10).
Proof.
  unfold digit. rewrite Z2N.inj_compare by (Z.div_mod_to_equations; lia).
  apply Z.add_compare_mono_l.
Qed.

Ltac compare_cases :=
  repeat match goal with
         | |- context [(?x ?= ?y)] => destruct (Z.compare_spec x y)
         end;
  try reflexivity; exfalso; Z.div_mod_to_equations; lia.

Lemma two_digits_compare a b ra rb :
  0 ≤ a < 100 → 0 ≤ b < 100 →
  str_compare (digit (a / 10) :: digit a :: ra) (digit (b / 10) :: digit b :: rb)
  = match a ?= b with Eq => str_compare ra rb | c => c end.
Proof.
  intros Ha Hb. rewrite !str_compare_cons, !digit_compare.
  generalize (str_compare ra rb). intros rest. compare_cases.
Qed.

Lemma four_digits_compare a b ra rb :
  0 ≤ a < 10000 → 0 ≤ b < 10000 →
  str_compare (digit (a / 1000) :: digit (a / 100) :: digit (a / 10) :: digit a :: ra)
              (digit (b / 1000) :: digit (b / 100) :: digit (b / 10) :: digit b :: rb)
  = match a ?= b with Eq => str_compare ra rb | c => c end.
Proof.
  intros Ha Hb. rewrite !str_compare_cons, !digit_compare.
  generalize (str_compare ra rb). intros rest. compare_cases.
Qed.

Lemma isoformat_compare a b :
  valid_date a → valid_date b →
  str_compare (isoformat a) (isoformat b) = date_compare a b.
Proof.
  intros (Hy & Hm & Hd) (Hy' & Hm' & Hd'). unfold isoformat, date_compare.
  cbn [app]. rewrite four_digits_compare by lia.
  rewrite (str_compare_cons 45 45). cbn [N.compare Pos.compare Pos.compare_cont].
  rewrite two_digits_compare by lia.
  rewrite (str_compare_cons 45 45). cbn [N.compare Pos.compare Pos.compare_cont].
  rewrite two_digits_compare by lia. cbn [str_compare].
  by destruct (year a ?= year b), (month a ?= month b), (day a ?= day b).
Qed.

Lemma date_compare_eq a b : date_compare a b = Eq → a = b.
Proof.
  unfold date_compare. destruct a as [y m d], b as [y' m' d']. simpl.
  destruct (Z.compare_spec y y') as [->| |]; try done.
  destruct (Z.compare_spec m m') as [->| |]; try done.
  by intros ->%Z.compare_eq.
Qed.

(** X9. The roster stores its dates as ISO strings and sorts them as
    strings. For dates a [datetime.date] can hold this is the order of
    the calendar: the strings compare as the dates do, two dates give the
    same string only when they are the same date, and the roster order
    puts a row of an earlier date before a row of a later one whatever
    their shifts. *)
Theorem isoformat_orders_dates a b (Ha : valid_date a) (Hb : valid_date b) :
  str_compare (isoformat a) (isoformat b) = date_compare a b
  ∧ (isoformat a = isoformat b ↔ a = b)
  ∧ (∀ sa da sb db,
       date_compare a b = Lt →
       roster_le (Roster.mk (isoformat a) sa da) (Roster.mk (isoformat b) sb db) = true
       ∧ roster_le (Roster.mk (isoformat b) sb db) (Roster.mk (isoformat a) sa da) = false).
Proof.
  pose proof (isoformat_compare a b Ha Hb) as Hcmp. split_and!.
  - done.
  - split; [|by intros ->]. intros Heq. apply date_compare_eq.
    by rewrite <- Hcmp, Heq, str_compare_refl.
  - intros sa da sb db Hlt. unfold roster_le. cbn [Roster.date Roster.shift].
    rewrite (str_compare_antisym (isoformat a) (isoformat b)), !Hcmp, Hlt. done.
Qed.

(** X9 for 31 January and 1 February 2024. *)
Lemma isoformat_orders_dates_witness :
  str_compare (isoformat (mkDate 2024 1 31)) (isoformat (mkDate 2024 2 1))
  = date_compare (mkDate 2024 1 31) (mkDate 2024 2 1)
  ∧ (isoformat (mkDate 2024 1 31) = isoformat (mkDate 2024 2 1)
     ↔ mkDate 2024 1 31 = mkDate 2024 2 1)
  ∧ (∀ sa da sb db,
       date_compare (mkDate 2024 1 31) (mkDate 2024 2 1) = Lt →
       roster_le (Roster.mk (isoformat (mkDate 2024 1 31)) sa da)
                 (Roster.mk (isoformat (mkDate 2024 2 1)) sb db) = true
       ∧ roster_le (Roster.mk (isoformat (mkDate 2024 2 1)) sb db)
                   (Roster.mk (isoformat (mkDate 2024 1 31)) sa da) = false).
Proof.
  apply (isoformat_orders_dates (mkDate 2024 1 31) (mkDate 2024 2 1));
    unfold valid_date; simpl; lia.
Defined.

(* ===================================================================== *)
(** ** The roster sort is stable *)
(* ===================================================================== *)

Section Stable.
Context {R : Type} (le : R → R → bool) (P : R → Prop) `{!∀ x, Decision (P x)}.
Hypothesis le_same : ∀ x y, P x → P y → le x y = true.

Lemma insert_sorted_filter x l :
  filter P (insert_sorted le x l) = filter P (x :: l).
Proof.
  induction l as [|y l IH]; simpl; [done|].
  destruct (le x y) eqn:E; [done|].
  rewrite (filter_cons P y), IH, !filter_cons.
  destruct (decide (P x)) as [Hx|Hx], (decide (P y)) as [Hy|Hy]; try done.
  by rewrite le_same in E.
Qed.

Lemma sort_values_filter (df : DataFrame R) :
  filter P (rows (sort_values le df)) = filter P (rows df).
Proof.
  unfold sort_values. simpl. induction (rows df) as [|x l IH]; simpl; [done|].
  by rewrite insert_sorted_filter, !filter_cons, IH.
Qed.
End Stable.

(** X10. The roster table never swaps two assignments of the same date
    and shift: the rows of any one (date, shift) appear in the table in
    the order in which they were added. So two doctors put on the same
    shift are listed first-added first. *)
Theorem roster_table_is_stable :
  (∀ ss d s,
      filter (λ r, Roster.date r = d ∧ Roster.shift r = s) (rows (roster_table ss))
      = filter (λ r, Roster.date r = d ∧ Roster.shift r = s) (rows (roster ss)))
  ∧ (∀ rdate rshift doc1 doc2 ss,
      rows (roster ss) = [] →
      map Roster.doctor
        (rows (roster_table
                 (add_to_roster rdate rshift doc2 (add_to_roster rdate rshift doc1 ss))))
      = [doc1; doc2]).
Proof.
  split.
  - intros ss d s. unfold roster_table. apply sort_values_filter.
    intros x y [Hxd Hxs] [Hyd Hys]. unfold roster_le.
    by rewrite Hxd, Hxs, Hyd, Hys, !str_compare_refl.
  - intros rdate rshift doc1 doc2 ss Hempty.
    unfold roster_table, add_to_roster, sort_values.
    generalize (isoformat rdate). intros d. simpl. rewrite Hempty. simpl.
    unfold roster_le. simpl. by rewrite !str_compare_refl.
Qed.

(* ===================================================================== *)
(** ** The vitals table *)
(* ===================================================================== *)

Lemma page_vitals_frame i ss ss' name df' :
  page i ss = Ok ss' → vitals ss' !! name = Some df' →
  vitals ss !! name = Some df'
  ∨ df' = mkDF VITALS_COLUMNS []
  ∨ ∃ df e, vitals ss !! name = Some df ∧ df' = concat df (mkDF ENTRY_COLUMNS [e]).
Proof.
  destruct i as [w submitted now | w b | w b now]; simpl.
  - intros [= <-].
    destruct (home_page_frame w submitted now ss) as (_ & _ & -> & _). by left.
  - intros H%consumer_page_Ok.
    destruct b as [[]|]; simpl in H; try (injection H as <-); try (by left).
    + unfold add_profile. destruct (truthy _ && _); [|by left]. simpl.
      rewrite lookup_insert_Some. intros [[_ <-]|[_ Hl]]; [right; by left | by left].
    + apply add_entry_Ok in H as (df & Hdf & ->). simpl.
      rewrite lookup_insert_Some. intros [[<- <-]|[_ Hl]]; [|by left].
      right. right. by exists df, (Vitals.mk (w_date w) (w_time w) (w_sys w) (w_dia w)
                                     (w_hr w) (w_glu w)).
  - intros [= <-].
    destruct (hospital_page_frame w b now ss) as (_ & _ & -> & _). by left.
Qed.

Lemma concat_entry_ok df e :
  vitals_frame_ok df → vitals_frame_ok (concat df (mkDF ENTRY_COLUMNS [e])).
Proof.
  intros [[Hc Hr]|[Hc Hr]]; right; unfold concat; simpl; rewrite Hc.
  - split; [by vm_compute | by destruct (rows df)].
  - split; [by vm_compute | by destruct (rows df)].
Qed.

Lemma reachable_vitals_frames ss name df :
  reachable ss → vitals ss !! name = Some df → vitals_frame_ok df.
Proof.
  intros Hreach. revert name df.
  induction Hreach as [|ss ss' _ IH [i _ Hrun]]; intros name df Hdf.
  - unfold initial, _init_state in Hdf. simpl in Hdf.
    apply lookup_singleton_Some in Hdf as [_ <-]. by left.
  - unfold run in Hrun. rewrite init_state_stored in Hrun.
    destruct (page_vitals_frame _ _ _ _ _ Hrun Hdf) as [Hold | [-> | (df0 & e & Hold & ->)]].
    + by eapply IH.
    + by left.
    + apply concat_entry_ok. by eapply IH.
Qed.





(** The same session evaluated: of the eight entries the view shows the
    last six, oldest first. *)
Example eight_entries_view :
  ∃ ss' shown,
    add_entries eight_entries initial = Ok ss'
    ∧ vitals_table ss' = Ok (Some shown)
    ∧ map Vitals.systolic (rows shown) = [113; 114; 115; 116; 117; 118]
    ∧ columns shown = LOGGED_COLUMNS.
Proof. do 2 eexists. split_and!; vm_compute; reflexivity. Qed.


(** X11. In every state a session reaches the vitals table of the active
    profile is well defined: the "No vitals yet" notice exactly when the
    profile has no entry, and otherwise a table of the last six entries
    (all of them when there are fewer) in logging order. A frame without
    entries has the five columns it was created with; from the first
    entry on it has these and the columns "date" and "time", so the
    column "datetime", which no entry fills, stays in the table. *)
Theorem vitals_table_last_six ss (Hreach : reachable ss) :
  ∃ df,
    vitals ss !! active_profile ss = Some df
    ∧ vitals_frame_ok df
    ∧ vitals_table ss = Ok (if decide (rows df = []) then None else Some (tail 6 df))
    ∧ rows (tail 6 df) = drop (length (rows df) - 6) (rows df)
    ∧ (length (rows (tail 6 df)) ≤ 6)%nat
    ∧ columns (tail 6 df) = columns df
    ∧ py "datetime" ∈ columns df.
Proof.
  destruct (reachable_coherent _ Hreach) as (Hv & _ & _ & _ & Ha).
  rewrite <- Hv in Ha. apply elem_of_dom in Ha as [df Hdf].
  pose proof (reachable_vitals_frames _ _ _ Hreach Hdf) as Hok.
  exists df. change (tail 6 df) with (tail (Z.of_nat 6) df). rewrite tail_rows.
  split_and!; try done.
  - unfold vitals_table, getitem. rewrite Hdf. simpl. f_equal.
    destruct Hok as [[Hc Hr]|[Hc Hr]]; unfold empty; rewrite Hc.
    + by rewrite Hr.
    + destruct (rows df); [done|]. done.
  - rewrite length_drop. lia.
  - destruct Hok as [[-> _]|[-> _]]; unfold LOGGED_COLUMNS, VITALS_COLUMNS;
      cbn [app]; apply elem_of_cons; by left.
Qed.

(** X11 on a new session: the notice is shown. *)
Lemma vitals_table_last_six_witness :
  ∃ df,
    vitals initial !! active_profile initial = Some df
    ∧ vitals_frame_ok df
    ∧ vitals_table initial = Ok (if decide (rows df = []) then None else Some (tail 6 df))
    ∧ rows (tail 6 df) = drop (length (rows df) - 6) (rows df)
    ∧ (length (rows (tail 6 df)) ≤ 6)%nat
    ∧ columns (tail 6 df) = columns df
    ∧ py "datetime" ∈ columns df.
Proof. apply (vitals_table_last_six initial). apply reachable_initial. Defined.

(* ===================================================================== *)
(** ** Profiles and the stores no handler writes *)
(* ===================================================================== *)

Lemma page_profiles i ss ss' :
  page i ss = Ok ss' →
  profiles ss' = profiles ss ∧ records ss' = records ss
  ∨ ∃ new_name, new_name ≠ [] ∧ (new_name ∉ dom (profiles ss))
       ∧ profiles ss' = <[new_name := Profile.mk None None]> (profiles ss)
       ∧ records ss' = <[new_name := []]> (records ss).
Proof.
  destruct i as [w submitted now | w b | w b now]; simpl.
  - intros [= <-]. left.
    by destruct (home_page_frame w submitted now ss) as (_ & -> & _ & _ & -> & _).
  - intros H%consumer_page_Ok.
    destruct b as [[]|]; simpl in H; try (injection H as <-); try (by left).
    + unfold add_profile. destruct (w_new_name w) as [|c n] eqn:E; simpl; [by left|].
      case_bool_decide as Hnew; simpl; [|by left].
      right. exists (c :: n). by split_and!.
    + apply add_entry_Ok in H as (df & _ & ->). by left.
  - intros [= <-]. left.
    by destruct (hospital_page_frame w b now ss) as (_ & -> & _ & _ & -> & _).
Qed.

Lemma page_unwritten i ss ss' :
  page i ss = Ok ss' →
  challenges ss' = challenges ss ∧ notes ss' = notes ss
  ∧ micro_consults ss' = micro_consults ss.
Proof.
  destruct i as [w submitted now | w b | w b now]; simpl.
  - intros [= <-]. unfold home_page. by destruct submitted.
  - intros H%consumer_page_Ok.
    destruct b as [[]|]; simpl in H; try (injection H as <-); try done.
    + unfold add_profile. by destruct (truthy _ && _).
    + by apply add_entry_Ok in H as (df & _ & ->).
  - intros [= <-]. unfold hospital_page, send.
    destruct b as [[]|]; simpl; try done. by destruct (truthy _).
Qed.

(** X12. Profiles are only ever added. A run keeps every profile with its
    attributes and adds at most one, under a name that is not empty and
    was not in use; so the profile "Me" exists in every state of a
    session. No handler sets a date of birth or a gender: every profile
    of a session has neither. *)
Theorem profiles_only_grow :
  (∀ i ss ss',
      page i ss = Ok ss' →
      profiles ss ⊆ profiles ss'
      ∧ (size (profiles ss') ≤ S (size (profiles ss)))%nat
      ∧ [] ∉ dom (profiles ss') ∖ dom (profiles ss))
  ∧ (∀ ss, reachable ss →
           py "Me" ∈ dom (profiles ss)
           ∧ ∀ name p, profiles ss !! name = Some p → p = Profile.mk None None).
Proof.
  split.
  - intros i ss ss' H.
    destruct (page_profiles _ _ _ H) as [[-> _] | (n & Hne & Hnew & -> & _)].
    + split_and!; [done | lia |]. rewrite difference_diag_L. apply not_elem_of_empty.
    + apply not_elem_of_dom in Hnew. split_and!.
      * by apply insert_subseteq.
      * rewrite map_size_insert_None by done. lia.
      * rewrite dom_insert_L, elem_of_difference, elem_of_union, elem_of_singleton.
        intros [[Heq|Hin] Hout]; [by apply Hne | done].
  - induction 1 as [|ss ss' _ [IHm IHp] [i _ Hrun]].
    + split; [apply elem_of_dom; by eexists|].
      intros name p. unfold initial, _init_state. simpl.
      by intros [_ <-]%lookup_singleton_Some.
    + unfold run in Hrun. rewrite init_state_stored in Hrun.
      destruct (page_profiles _ _ _ Hrun) as [[-> _] | (n & Hne & Hnew & -> & _)]; [done|].
      split.
      * rewrite dom_insert_L. by apply elem_of_union_r.
      * intros name p. rewrite lookup_insert_Some.
        intros [[_ <-]|[_ Hl]]; [done | by eapply IHp].
Qed.

(** X13. Four stores are created by [_init_state] and never written
    again. Throughout a session the challenges hold the one entry made for
    "Me" (a profile added later gets none), the notes frame and the
    micro-consult list are empty, and the record list of every profile is
    empty. *)
Theorem unwritten_stores ss (Hreach : reachable ss) :
  challenges ss = {[ py "Me" := Challenge.mk None 0 None ]}
  ∧ notes ss = mkDF NOTE_COLUMNS []
  ∧ micro_consults ss = []
  ∧ (∀ name l, records ss !! name = Some l → l = [])
  ∧ (∀ name, name ∈ dom (profiles ss) → name ≠ py "Me" → challenges ss !! name = None).
Proof.
  assert (challenges ss = {[ py "Me" := Challenge.mk None 0 None ]}
          ∧ notes ss = mkDF NOTE_COLUMNS [] ∧ micro_consults ss = []
          ∧ (∀ name l, records ss !! name = Some l → l = [])) as (Hc & Hn & Hm & Hr).
  { induction Hreach as [|ss ss' _ (IHc & IHn & IHm & IHr) [i _ Hrun]].
    - split_and!; try done. intros name l. unfold initial, _init_state. simpl.
      by intros [_ <-]%lookup_singleton_Some.
    - unfold run in Hrun. rewrite init_state_stored in Hrun.
      destruct (page_unwritten _ _ _ Hrun) as (-> & -> & ->).
      split_and!; try done. intros name l.
      destruct (page_profiles _ _ _ Hrun) as [[_ ->] | (n & _ & _ & _ & ->)].
      + apply IHr.
      + rewrite lookup_insert_Some. intros [[_ <-]|[_ Hl]]; [done | by eapply IHr]. }
  split_and!; try done.
  intros name _ Hne. rewrite Hc. by apply lookup_singleton_ne.
Qed.

(** X13 on a session in which "Sam" was added. *)
Lemma unwritten_stores_witness :
  ∃ ss,
    run (ConsumerPage sam_typed (Some BtnAddProfile)) fresh_session = Ok ss
    ∧ py "Sam" ∈ dom (profiles ss)
    ∧ challenges ss = {[ py "Me" := Challenge.mk None 0 None ]}
    ∧ notes ss = mkDF NOTE_COLUMNS []
    ∧ micro_consults ss = []
    ∧ (∀ name l, records ss !! name = Some l → l = [])
    ∧ (∀ name, name ∈ dom (profiles ss) → name ≠ py "Me" → challenges ss !! name = None).
Proof.
  eexists. split; [vm_compute; reflexivity|].
  split; [apply elem_of_dom; eexists; vm_compute; reflexivity|].
  eapply unwritten_stores.
  apply (reachable_step initial); [apply reachable_initial|].
  apply (step_run _ _ (ConsumerPage sam_typed (Some BtnAddProfile)));
    vm_compute; reflexivity.
Defined.

(* ===================================================================== *)
(** ** The other patients of the registry *)
(* ===================================================================== *)

Lemma filter_twice {A} (f : A → bool) l : List.filter f (List.filter f l) = List.filter f l.
Proof.
  induction l as [|x l IH]; simpl; [done|].
  destruct (f x) eqn:E; simpl; by rewrite ?E, IH.
Qed.

Lemma kept_count pid l :
  NoDup (map Patient.id l) →
  length (List.filter (λ x, bool_decide (Patient.id x ≠ pid)) l)
  = if decide (pid ∈ map Patient.id l) then pred (length l) else length l.
Proof.
  induction l as [|x l IH]; simpl; [done|].
  rewrite NoDup_cons. intros [Hx Hl]. specialize (IH Hl).
  destruct (decide (Patient.id x = pid)) as [Heq|Hne].
  - rewrite bool_decide_eq_false_2 by (intros H; by apply H).
    rewrite decide_True by (rewrite elem_of_cons; by left).
    rewrite IH, decide_False by by rewrite <- Heq. done.
  - rewrite bool_decide_eq_true_2 by done. simpl. rewrite IH.
    destruct (decide (pid ∈ map Patient.id l)) as [Hin|Hout].
    + rewrite decide_True by (rewrite elem_of_cons; by right).
      destruct l; [by apply elem_of_nil in Hin | done].
    + rewrite decide_False; [done|].
      rewrite elem_of_cons. intros [?|?]; [by apply Hne | done].
Qed.

(** X14. An upsert touches no other patient. The rows with another id
    are the same rows in the same order before and after; a row with
    another id is in the registry afterwards exactly when it was before.
    When the ids were unique, the registry keeps its size if the id was
    already registered and grows by one row if it was not. *)
Theorem upsert_patient_spares_others :
  ∀ ss pid pname page psex pall pcom,
    let ss' := upsert_patient pid pname page psex pall pcom ss in
    List.filter (λ x, bool_decide (Patient.id x ≠ pid)) (rows (patients ss'))
    = List.filter (λ x, bool_decide (Patient.id x ≠ pid)) (rows (patients ss))
    ∧ (∀ r, Patient.id r ≠ pid → r ∈ rows (patients ss') ↔ r ∈ rows (patients ss))
    ∧ (NoDup (patient_ids ss) →
       length (rows (patients ss'))
       = if decide (pid ∈ patient_ids ss)
         then length (rows (patients ss))
         else S (length (rows (patients ss)))).
Proof.
  intros ss pid pname page psex pall pcom ss'.
  set (r0 := Patient.mk pid pname page psex pall pcom).
  assert (rows (patients ss')
          = List.filter (λ x, bool_decide (Patient.id x ≠ pid)) (rows (patients ss)) ++ [r0])
    as Hrows by apply (upsert_row_rows r0).
  rewrite Hrows. split_and!.
  - rewrite List.filter_app, filter_twice. simpl.
    rewrite bool_decide_eq_false_2 by (intros H; by apply H). apply app_nil_r.
  - intros r Hr. rewrite elem_of_app, list_elem_of_singleton, !list_elem_of_In, filter_In.
    rewrite bool_decide_eq_true. split.
    + intros [[? _] | ->]; [done | by destruct Hr].
    + intros Hin. left. by split.
  - intros Hnd. rewrite length_app. simpl. unfold patient_ids in *.
    rewrite kept_count by done.
    destruct (decide (pid ∈ map Patient.id (rows (patients ss)))) as [Hin|Hout]; [|lia].
    destruct (rows (patients ss)); [by apply elem_of_nil in Hin | simpl; lia].
Qed.

(* ===================================================================== *)
(** ** Interpreter text *)
(* ===================================================================== *)

(** X15. The interpreter text changes only by a click on "Interpret",
    which stores the field as it is; every other run leaves it alone. The
    page shows nothing while the stored text is empty and otherwise its
    first 1000 characters: the whole text when it is no longer than
    that. *)
Theorem lab_text_set_by_interpret :
  (∀ i ss ss',
      page i ss = Ok ss' →
      match i with
      | ConsumerPage w (Some BtnInterpret) => lab_text ss' = w_lab_text w
      | _ => lab_text ss' = lab_text ss
      end)
  ∧ (∀ ss,
      match lab_view ss with
      | None => lab_text ss = []
      | Some shown =>
          lab_text ss ≠ [] ∧ shown `prefix_of` lab_text ss
          ∧ length shown = (1000 `min` length (lab_text ss))%nat
      end)
  ∧ (∀ ss, (length (lab_text ss) ≤ 1000)%nat → lab_text ss ≠ [] →
           lab_view ss = Some (lab_text ss)).
Proof.
  split_and!.
  - intros i ss ss'. destruct i as [w submitted now | w b | w b now]; simpl.
    + intros [= <-]. unfold home_page. by destruct submitted.
    + intros H%consumer_page_Ok.
      destruct b as [[]|]; simpl in H; try (injection H as <-); try done.
      * unfold add_profile. by destruct (truthy _ && _).
      * by apply add_entry_Ok in H as (df & _ & ->).
    + intros [= <-]. unfold hospital_page, send.
      destruct b as [[]|]; simpl; try done. by destruct (truthy _).
  - intros ss. unfold lab_view. destruct (lab_text ss) as [|c t] eqn:E; [done|].
    cbn [truthy]. rewrite <- E. split_and!.
    + by rewrite E.
    + apply prefix_take.
    + rewrite length_take. lia.
  - intros ss Hlen Hne. unfold lab_view. destruct (lab_text ss) as [|c t] eqn:E; [done|].
    cbn [truthy]. rewrite <- E in *. by rewrite take_ge.
Qed.

(* ===================================================================== *)
(** ** Cards of the home page *)
(* ===================================================================== *)

Lemma card_items_cons b bs :
  card_items (b :: bs) = (py "<li>" ++ b ++ py "</li>") ++ card_items bs.
Proof. done. Qed.

Lemma foldl_card_items html bullets :
  foldl (λ html b, html ++ (py "<li>" ++ b ++ py "</li>")) html bullets
  = html ++ card_items bullets.
Proof.
  revert html. induction bullets as [|b bs IH]; intros html; cbn [foldl].
  - unfold card_items. cbn [map mjoin list_join]. by rewrite app_nil_r.
  - by rewrite IH, card_items_cons, <- !app_assoc.
Qed.

Lemma card_html_parts title desc bullets kpi cta_label key :
  card_html title desc bullets kpi cta_label key
  = py "<div class='card'>" ++ (py "<h4>" ++ title ++ py "</h4>") ++ card_kpi kpi
    ++ (py "<div class='small'>" ++ desc ++ py "</div>")
    ++ card_list bullets ++ card_cta cta_label ++ py "</div>".
Proof.
  unfold card_html, card_kpi, card_list, card_cta.
  destruct kpi as [[|ck k]|], bullets as [[|b bs]|], cta_label as [[|cc c]|];
    cbn [truthy]; rewrite ?foldl_card_items, ?app_nil_l, <- ?app_assoc; reflexivity.
Qed.

(** X16. [render_card] emits its style sheet followed by one card: the
    title, then the KPI line, the description, the bullet list and the
    call-to-action link, closed by the card's end tag. The loop over the
    bullets yields one list item per bullet, in order. An optional part
    that is absent and one that is empty give the same card (no empty KPI
    line, list or link is written), the [key] argument has no effect, and
    the bullets are inserted as they are: the list items take nine
    characters of markup per bullet plus the lengths of the bullets. *)
Theorem render_card_layout :
  (∀ css title desc bullets kpi cta_label key,
      render_card css title desc bullets kpi cta_label key
      = css ++ py "<div class='card'>" ++ (py "<h4>" ++ title ++ py "</h4>")
        ++ card_kpi kpi
        ++ (py "<div class='small'>" ++ desc ++ py "</div>")
        ++ card_list bullets ++ card_cta cta_label ++ py "</div>")
  ∧ (∀ bullets, card_items bullets = mjoin (map (λ b, py "<li>" ++ b ++ py "</li>") bullets)
                ∧ length (card_items bullets)
                  = (9 * length bullets + length (mjoin bullets))%nat)
  ∧ (∀ css title desc bullets kpi cta_label key key',
      render_card css title desc bullets kpi cta_label key
      = render_card css title desc bullets kpi cta_label key')
  ∧ (∀ css title desc key,
      render_card css title desc None None None key
      = render_card css title desc (Some []) (Some []) (Some []) key
      ∧ render_card css title desc None None None key
        = css ++ py "<div class='card'><h4>" ++ title
          ++ py "</h4><div class='small'>" ++ desc ++ py "</div></div>").
Proof.
  split_and!.
  - intros. unfold render_card. by rewrite card_html_parts.
  - intros bullets. split; [done|].
    induction bullets as [|b bs IH]; [done|].
    rewrite card_items_cons. change (mjoin (b :: bs)) with (b ++ mjoin bs).
    rewrite !length_app, IH. cbn [length].
    change (length (py "<li>")) with 4%nat. change (length (py "</li>")) with 5%nat. lia.
  - intros. unfold render_card. by rewrite !card_html_parts.
  - intros css title desc key. unfold render_card. rewrite !card_html_parts.
    split; [done|]. cbn [card_kpi card_list card_cta]. cbn [app].
    rewrite <- !app_assoc. reflexivity.
Qed.

(* ===================================================================== *)
(** ** Selecting a name that is no profile *)
(* ===================================================================== *)

Lemma select_active_known active ss :
  active_profile ss ∈ dom (profiles ss) →
  select_active active ss = Ok (set_active_profile active ss).
Proof.
  intros Hin. unfold select_active. rewrite bool_decide_eq_true_2 by done.
  case_bool_decide as Hne; [done|]. subst active. by destruct ss.
Qed.

Lemma consumer_page_added_and_selected w ss :
  coherent ss → w_active w ∉ dom (profiles ss) → w_active w ≠ [] →
  w_new_name w = w_active w →
  is_Ok (consumer_page w (Some BtnAddProfile) ss).
Proof.
  intros (Hv & Hm & Hr & Hp & Ha) Hnew Hne Heq. unfold consumer_page.
  rewrite select_active_known by done. simpl. rewrite Heq.
  rewrite add_profile_new by done. simpl.
  unfold passport_payload, vitals_table, getitem. simpl.
  by rewrite !lookup_insert_eq.
Qed.

Lemma consumer_page_unknown w b ss :
  coherent ss → w_active w ∉ dom (profiles ss) →
  (b = Some BtnAddProfile → w_new_name w ≠ w_active w ∨ w_active w = []) →
  consumer_page w b ss = Raise (KeyError (w_active w)).
Proof.
  intros (Hv & Hm & Hr & Hp & Ha) Hnew Hb. unfold consumer_page.
  rewrite select_active_known by done. simpl.
  assert (passport ss !! w_active w = None) as Hnone.
  { apply not_elem_of_dom. by rewrite Hp. }
  assert (getitem
            (passport (if clicked_consumer b BtnAddProfile
                       then add_profile (w_new_name w) (set_active_profile (w_active w) ss)
                       else set_active_profile (w_active w) ss))
            (active_profile
               (if clicked_consumer b BtnAddProfile
                then add_profile (w_new_name w) (set_active_profile (w_active w) ss)
                else set_active_profile (w_active w) ss))
          = Raise (KeyError (w_active w))) as ->; [|done].
  destruct b as [[]|]; simpl; try (unfold getitem; by rewrite Hnone).
  unfold add_profile. destruct (truthy (w_new_name w) && _) eqn:E; simpl.
  - unfold getitem. rewrite lookup_insert_ne, Hnone; [done|].
    intros Heq. destruct (Hb eq_refl) as [Hdiff | Hempty]; [done|].
    rewrite Heq, Hempty in E. done.
  - unfold getitem. by rewrite Hnone.
Qed.

(** X17. A direct call of the consumer page that selects a name that is
    not a profile (the select box never offers one) stops at the first
    read of that profile's passport with [KeyError] for the name, whatever
    button is clicked. The one exception is a run that adds the profile:
    with "Add Profile" clicked and the same, non-empty name typed as the
    new name, the profile exists before the passport is read and the run
    completes. *)
Theorem consumer_page_unknown_profile w b ss
    (Hc : coherent ss) (Hnew : w_active w ∉ dom (profiles ss)) :
  if clicked_consumer b BtnAddProfile
     && bool_decide (w_new_name w = w_active w) && truthy (w_active w)
  then is_Ok (consumer_page w b ss)
  else consumer_page w b ss = Raise (KeyError (w_active w)).
Proof.
  destruct (clicked_consumer b BtnAddProfile) eqn:Eb; simpl.
  - assert (b = Some BtnAddProfile) as -> by (by destruct b as [[]|]).
    case_bool_decide as Heq; simpl.
    + destruct (truthy (w_active w)) eqn:Et.
      * apply consumer_page_added_and_selected; [done | done | | done].
        intros Hempty. by rewrite Hempty in Et.
      * apply consumer_page_unknown; [done | done |].
        intros _. right. by destruct (w_active w).
    + apply consumer_page_unknown; [done | done | by left].
  - apply consumer_page_unknown; [done | done |].
    intros ->. done.
Qed.

(** X17 on a new session with the name "Sam" selected: the run fails. *)
Lemma consumer_page_unknown_profile_witness :
  consumer_page
    (mkConsumerWidgets (py "Sam") [] [] [] [] [] jan_1_2024 eight_am 120 80 72 95 [])
    (Some BtnAddEntry) initial
  = Raise (KeyError (py "Sam")).
Proof.
  apply (consumer_page_unknown_profile
           (mkConsumerWidgets (py "Sam") [] [] [] [] [] jan_1_2024 eight_am 120 80 72 95 [])
           (Some BtnAddEntry) initial).
  - apply coherent_initial.
  - apply not_elem_of_dom. vm_compute. reflexivity.
Defined.
